(** * generateResources.py: the resource generator of TerraFirmaCraft

    A shallow embedding of [src/generateResources.py] and the properties of
    its emission primitives ([del_none], [blockstate], [cube_all], [model],
    [item]), of its archival step and of its driver loops.

    Python objects that end up in a JSON file are modelled as trees
    ([value]); a [dict] is an association list in insertion order whose keys
    are pairwise distinct, which is what [json.dump] serialises.  The part
    of the script that mutates objects in place is modelled a second time on
    an explicit object store (module [Store]) and related to the tree
    model. *)

From Stdlib Require Import ZArith QArith_base String Ascii DecimalString DecimalNat.
From stdpp Require Import gmap strings list fin_maps sorting.

#[local] Set Warnings "-register-all".
#[local] Open Scope string_scope.
#[local] Open Scope list_scope.

(** ** Python values *)

(** The values the script builds and hands to [json.dump]. *)
Inductive value :=
| VNone
| VBool (b : bool)
| VInt (z : Z)
| VFloat (q : Q)
| VStr (s : string)
| VList (l : list value)
| VDict (d : list (string * value)).

(** A [dict] with string keys, in insertion order. *)
Abbreviation dict := (list (string * value)).

(** [value is None] and [isinstance(value, dict)]. *)
Definition is_None (v : value) : bool :=
  match v with VNone => true | _ => false end.

Definition is_dict (v : value) : bool :=
  match v with VDict _ => true | _ => false end.

(** ** Dictionary operations *)

Definition keys {A} (d : list (string * A)) : list string := d.*1.

(** [d.get(k)] *)
Fixpoint dict_get {A} (k : string) (d : list (string * A)) : option A :=
  match d with
  | [] => None
  | (k', v) :: r => if decide (k' = k) then Some v else dict_get k r
  end.

(** [d[k] = v]: an existing key keeps its place, a new key goes last. *)
Fixpoint dict_set {A} (k : string) (v : A) (d : list (string * A))
  : list (string * A) :=
  match d with
  | [] => [(k, v)]
  | (k', v') :: r =>
      if decide (k' = k) then (k, v) :: r else (k', v') :: dict_set k v r
  end.

(** [del d[k]] *)
Fixpoint dict_del {A} (k : string) (d : list (string * A))
  : list (string * A) :=
  match d with
  | [] => []
  | (k', v') :: r =>
      if decide (k' = k) then r else (k', v') :: dict_del k r
  end.

(** [d.update(other)] *)
Definition dict_update {A} (d other : list (string * A))
  : list (string * A) :=
  foldl (λ acc kv, dict_set kv.1 kv.2 acc) d other.

(** A dict display [{k1: v1, ..., kn: vn}]: entries are stored left to
    right, a repeated key keeps its first place and its last value. *)
Definition dict_of {A} (entries : list (string * A)) : list (string * A) :=
  dict_update [] entries.

(** The keys of a dict are pairwise distinct, at every level: the
    association lists that are Python dicts. *)
Fixpoint dict_ok (v : value) : bool :=
  match v with
  | VDict d =>
      bool_decide (NoDup (keys d)) && forallb (λ kv, dict_ok kv.2) d
  | VList l => forallb dict_ok l
  | _ => true
  end.

(** No [None] anywhere in the tree, list elements included. *)
Fixpoint null_free (v : value) : bool :=
  match v with
  | VNone => false
  | VDict d => forallb (λ kv, null_free kv.2) d
  | VList l => forallb null_free l
  | _ => true
  end.

(** A tree of mappings: every value is [None], a scalar or a mapping. *)
Fixpoint mapping_tree (v : value) : bool :=
  match v with
  | VDict d => forallb (λ kv, mapping_tree kv.2) d
  | VList _ => false
  | _ => true
  end.

(** ** Null-pruning *)

(** The loop of [del_none]: it runs over a snapshot [items] of the items
    and changes the dict [cur] itself.  [rec] is the nested call: it changes
    the nested dict in place, so the entry keeps its key and its place. *)
Definition del_none_loop (rec : value → value) : dict → dict → dict :=
  fix loop (items cur : dict) {struct items} : dict :=
    match items with
    | [] => cur
    | (key, value) :: rest =>
        loop rest
          (if is_None value then dict_del key cur
           else if is_dict value then dict_set key (rec value) cur
           else cur)
    end.

(** [del_none] seen from a value: a dict is pruned, anything else is not
    a dict and is never passed to [del_none]. *)
Fixpoint del_none_value (v : value) : value :=
  match v with
  | VDict d => VDict (del_none_loop del_none_value d d)
  | _ => v
  end.

(** [del_none(d)] *)
Definition del_none (d : dict) : dict := del_none_loop del_none_value d d.

(** ** Paths ([posixpath]) *)

Definition sep : ascii := "/"%char.

(** [b.startswith('/')] *)
Definition is_abs (b : string) : bool :=
  match b with
  | String c _ => Ascii.eqb c sep
  | EmptyString => false
  end.

(** [path.endswith('/')] *)
Fixpoint endswith_sep (path : string) : bool :=
  match path with
  | EmptyString => false
  | String c EmptyString => Ascii.eqb c sep
  | String _ r => endswith_sep r
  end.

(** One round of the loop of [os.path.join]. *)
Definition join2 (path b : string) : string :=
  if is_abs b then b
  else if String.eqb path "" || endswith_sep path then path +:+ b
  else path +:+ "/" +:+ b.

(** [os.path.join(a, *p)] *)
Definition os_path_join (a : string) (p : list string) : string :=
  foldl join2 a p.

Fixpoint has_sep (p : string) : bool :=
  match p with
  | EmptyString => false
  | String c r => Ascii.eqb c sep || has_sep r
  end.

Fixpoint all_sep (p : string) : bool :=
  match p with
  | EmptyString => true
  | String c r => Ascii.eqb c sep && all_sep r
  end.

(** [p[:p.rfind('/') + 1]] *)
Fixpoint upto_last_sep (p : string) : string :=
  match p with
  | EmptyString => ""
  | String c r => if has_sep p then String c (upto_last_sep r) else ""
  end.

(** [head.rstrip('/')] *)
Fixpoint rstrip_sep (head : string) : string :=
  match head with
  | EmptyString => ""
  | String c r => if all_sep head then "" else String c (rstrip_sep r)
  end.

(** [os.path.dirname(p)] *)
Definition os_path_dirname (p : string) : string :=
  let head := upto_last_sep p in
  if negb (String.eqb head "") && negb (all_sep head) then rstrip_sep head
  else head.

(** [fn[n:]] *)
Fixpoint str_drop (n : nat) (fn : string) : string :=
  match n, fn with
  | S m, String _ r => str_drop m r
  | _, _ => fn
  end.

(** ['%d' % n] and [str(z)] *)
Definition str_of_nat (n : nat) : string :=
  NilZero.string_of_uint (Nat.to_uint n).

Definition str_of_Z (z : Z) : string :=
  NilZero.string_of_int (Z.to_int z).

(** ** Files and effects *)

(** What a file holds: bytes the script never looks at, a JSON document
    (kept as the tree that [json.dump] serialises), or a zip archive (kept
    as its entries by archive name). *)
Inductive fdata :=
| FRaw (bytes : string)
| FJson (doc : value)
| FZip (entries : gmap string fdata).

(** The effects of the script on the file system, in program order. *)
Inductive event :=
| EMkdir (p : string)
| EWriteText (p : string) (text : string)
| EZip (zip_name : string) (entries : gmap string fdata)
| EChdir (p : string)
| EMakedirs (p : string)
| EWriteJson (p : string) (doc : value).

(** The world the script runs in: the working directory of the process
    (relative to the directory the script is started in, which is [""]),
    the directories and the files by path, and the reading of
    [time.time()]. *)
Record world := World {
  cwd : string;
  dirs : gset string;
  files : gmap string fdata;
  clock : Q;
}.

(** A path as the operating system resolves it against the working
    directory. *)
Definition resolve_in (dir p : string) : string := os_path_join dir [p].

Definition resolve (w : world) (p : string) : string := resolve_in (cwd w) p.

(** The directory [p] and the directories above it. *)
Fixpoint dir_chain (p : string) : list string :=
  match p with
  | EmptyString => []
  | String c r =>
      (if String.eqb r "" || is_abs r then [String c ""] else [])
      ++ map (String c) (dir_chain r)
  end.

(** What one effect does to the world (on a file system that accepts it;
    an effect that fails raises and nothing after it happens). *)
Definition step (w : world) (e : event) : world :=
  match e with
  | EMkdir p =>
      World (cwd w) ({[resolve w p]} ∪ dirs w) (files w) (clock w)
  | EWriteText p text =>
      World (cwd w) (dirs w) (<[resolve w p := FRaw text]> (files w)) (clock w)
  | EZip p entries =>
      World (cwd w) (dirs w) (<[resolve w p := FZip entries]> (files w)) (clock w)
  | EChdir p =>
      World (resolve w p) (dirs w) (files w) (clock w)
  | EMakedirs p =>
      World (cwd w) (list_to_set (dir_chain (resolve w p)) ∪ dirs w)
        (files w) (clock w)
  | EWriteJson p doc =>
      World (cwd w) (dirs w) (<[resolve w p := FJson doc]> (files w)) (clock w)
  end.

Definition exec (w : world) (es : list event) : world := foldl step w es.

(** [os.path.isdir(p)] *)
Definition os_path_isdir (w : world) (p : string) : bool :=
  bool_decide (resolve w p ∈ dirs w).

(** ** The archival step *)

(** [os.walk(target_dir)] with the inner loop over the files: the files
    below [target_dir] (in the order of the directory listings, which is
    any order), each under the name [fn = os.path.join(base, file)] the
    script sees (it starts with [target_dir]), and with its content. *)
Definition os_walk_files (w : world) (target_dir : string)
  : list (string * fdata) :=
  let root := resolve w target_dir in
  map (λ kv, (target_dir +:+ str_drop (String.length root) kv.1, kv.2))
    (map_to_list
       (filter (λ kv, String.prefix (root +:+ "/") kv.1 = true) (files w))).

(** [zipfolder(zip_name, target_dir)] *)
Definition zipfolder (w : world) (zip_name target_dir : string) : list event :=
  let rootlen := String.length target_dir + 1 in
  [EZip zip_name
     (list_to_map
        (map (λ kv, (str_drop rootlen kv.1, kv.2))
           (os_walk_files w target_dir)))].

Definition nl : string := String "010"%char "".

Definition gitignore_text : string :=
  "# This folder does not belong on git. Not even as an empty folder, so we ignore everything, incl. this file."
  +:+ nl +:+ "*" +:+ nl.

(** [int(x)] for a float: truncation towards zero. *)
Definition int_of (x : Q) : Z := Z.quot (Qnum x) (Z.pos (Qden x)).

Definition assets : string := "src/main/resources/assets/tfc".

(** The top of the script, up to [os.chdir]. *)
Definition archive (w : world) : list event :=
  let init :=
    if os_path_isdir w "assets_backups" then []
    else [EMkdir "assets_backups";
          EWriteText "assets_backups/.gitignore" gitignore_text] in
  let w1 := exec w init in
  init
  ++ zipfolder w1 ("assets_backups/" +:+ str_of_Z (int_of (clock w1)) +:+ ".zip")
       assets
  ++ [EChdir "src/main/resources/assets/tfc/"].

(** ** Emission primitives *)

(** A key of the texture mapping of [blockstate]: a slot name or a tuple
    of slot names. *)
Inductive tkey :=
| KStr (slot : string)
| KTuple (slots : list string).

(** A string, or [None]. *)
Definition opt_str (o : option string) : value :=
  match o with
  | Some s => VStr s
  | None => VNone
  end.

(** The loop of [blockstate] that unpacks tuple keys. *)
Definition unpack_textures (textures : list (tkey * string)) : dict :=
  foldl
    (λ _textures kv,
       match kv.1 with
       | KStr key => dict_set key (VStr kv.2) _textures
       | KTuple key => foldl (λ t x, dict_set x (VStr kv.2) t) _textures key
       end)
    [] textures.

(** [_variants] of [blockstate]: [if variants:] holds for a dict that is
    not empty. *)
Definition merge_variants (variants : option dict) : dict :=
  let _variants := dict_of [("normal", VList [VDict []])] in
  match variants with
  | Some (kv :: rest) => dict_update _variants (kv :: rest)
  | _ => _variants
  end.

(** The document [blockstate] hands to [json.dump]. *)
Definition blockstate_doc (model : option string)
    (textures : list (tkey * string)) (variants : option dict) : dict :=
  let _variants := merge_variants variants in
  let _textures := unpack_textures textures in
  del_none
    (dict_of
       [("__comment",
         VStr "Generated by generateResources.py function: blockstate");
        ("forge_marker", VInt 1);
        ("defaults",
         VDict (dict_of [("model", opt_str model);
                         ("textures", VDict _textures)]));
        ("variants", VDict _variants)]).

(** [blockstate(filename_parts, model, textures, variants=None)] *)
Definition blockstate (filename_parts : list string) (model : option string)
    (textures : list (tkey * string)) (variants : option dict) : list event :=
  let p := os_path_join "blockstates" filename_parts +:+ ".json" in
  [EMakedirs (os_path_dirname p);
   EWriteJson p (VDict (blockstate_doc model textures variants))].

(** [cube_all(filename_parts, texture, variants=None, model='cube_all')] *)
Definition cube_all (filename_parts : list string) (texture : string)
    (variants : option dict) (model : string) : list event :=
  blockstate filename_parts (Some model) [(KStr "all", texture)] variants.

(** The document [model] hands to [json.dump]. *)
Definition model_doc (parent textures : value) : dict :=
  del_none
    (dict_of
       [("__comment", VStr "Generated by generateResources.py function: model");
        ("parent", parent);
        ("textures", textures)]).

(** [model(filename_parts, parent, textures)] *)
Definition model (filename_parts : list string) (parent textures : value)
  : list event :=
  let p := os_path_join "models" filename_parts +:+ ".json" in
  [EMakedirs (os_path_dirname p);
   EWriteJson p (VDict (model_doc parent textures))].

(** [{'layer%d' % i: v for i, v in enumerate(layers)}] *)
Definition layer_textures (layers : list string) : dict :=
  dict_of (imap (λ i v, ("layer" +:+ str_of_nat i, VStr v)) layers).

(** [item(filename_parts, *layers, parent='item/generated')] *)
Definition item (filename_parts : list string) (layers : list string)
    (parent : string) : list event :=
  model ("item" :: filename_parts) (VStr parent)
    (if decide (length layers = 0) then VNone
     else VDict (layer_textures layers)).

(** ** Enumeration tables *)

(** The tables the driver loops run over.  A table with an attribute (a
    Python dict) is the list of its items in insertion order; [STEEL] is a
    set. *)
Record tables := Tables {
  ROCK_TYPES : list string;
  ROCK_CATEGORIES : list string;
  FULLBLOCK_TYPES : list string;
  GRASS_TYPES : list string;
  ORE_TYPES : list (string * bool);
  POWDERS : list string;
  WOOD_TYPES : list string;
  GEM_TYPES : list string;
  GEM_GRADES : list string;
  METAL_TYPES : list (string * bool);
  METAL_ITEMS : list (string * bool);
  STEEL : gset string;
  TOOLS : list string;
  FLUIDS : list (string * string);
}.

(** The tables of the script. *)
Definition source_tables : tables := {|
  ROCK_TYPES :=
      ["granite"; "diorite"; "gabbro"; "shale"; "claystone"; "rocksalt";
       "limestone"; "conglomerate"; "dolomite"; "chert"; "chalk";
       "rhyolite"; "basalt"; "andesite"; "dacite"; "quartzite"; "slate";
       "phyllite"; "schist"; "gneiss"; "marble"];
  ROCK_CATEGORIES :=
      ["sedimentary"; "metamorphic"; "igneous_intrusive";
       "igneous_extrusive"];
  FULLBLOCK_TYPES :=
      ["raw"; "smooth"; "cobble"; "bricks"; "sand"; "gravel"; "dirt"; "clay"];
  GRASS_TYPES :=
      ["grass"; "dry_grass"];
  ORE_TYPES :=
      [("native_copper", true); ("native_gold", true);
       ("native_platinum", true); ("hematite", true);
       ("native_silver", true); ("cassiterite", true); ("galena", true);
       ("bismuthinite", true); ("garnierite", true); ("malachite", true);
       ("magnetite", true); ("limonite", true); ("sphalerite", true);
       ("tetrahedrite", true); ("bituminous_coal", false);
       ("lignite", false); ("kaolinite", false); ("gypsum", false);
       ("satinspar", false); ("selenite", false); ("graphite", false);
       ("kimberlite", false); ("petrified_wood", false); ("sulfur", false);
       ("jet", false); ("microcline", false); ("pitchblende", false);
       ("cinnabar", false); ("cryolite", false); ("saltpeter", false);
       ("serpentine", false); ("sylvite", false); ("borax", false);
       ("olivine", false); ("lapis_lazuli", false)];
  POWDERS :=
      ["flux"; "coke"; "kaolinite_powder"; "graphite_powder";
       "sulfur_powder"; "saltpeter_powder"; "hematite_powder";
       "lapis_lazuli_powder"; "limonite_powder"; "malachite_powder";
       "salt"; "fertilizer"];
  WOOD_TYPES :=
      ["ash"; "aspen"; "birch"; "chestnut"; "douglas_fir"; "hickory";
       "maple"; "oak"; "pine"; "sequoia"; "spruce"; "sycamore";
       "white_cedar"; "willow"; "kapok"; "acacia"; "rosewood"; "blackwood";
       "palm"];
  GEM_TYPES :=
      ["agate"; "amethyst"; "beryl"; "diamond"; "emerald"; "garnet";
       "jade"; "jasper"; "opal"; "ruby"; "sapphire"; "topaz"; "tourmaline"];
  GEM_GRADES :=
      ["normal"; "flawed"; "flawless"; "chipped"; "exquisite"];
  METAL_TYPES :=
      [("bismuth", false); ("bismuth_bronze", true);
       ("black_bronze", true); ("brass", false); ("bronze", true);
       ("copper", true); ("gold", false); ("lead", false);
       ("nickel", false); ("rose_gold", false); ("silver", false);
       ("tin", false); ("zinc", false); ("sterling_silver", false);
       ("wrought_iron", true); ("pig_iron", false); ("steel", true);
       ("platinum", false); ("black_steel", true); ("blue_steel", true);
       ("red_steel", true)];
  METAL_ITEMS :=
      [("ingot", false); ("double_ingot", false); ("scrap", false);
       ("dust", false); ("nugget", false); ("sheet", false);
       ("double_sheet", false); ("anvil", true); ("tuyere", true);
       ("lamp", false); ("pick", true); ("pick_head", true);
       ("shovel", true); ("shovel_head", true); ("axe", true);
       ("axe_head", true); ("hoe", true); ("hoe_head", true);
       ("chisel", true); ("chisel_head", true); ("sword", true);
       ("sword_blade", true); ("mace", true); ("mace_head", true);
       ("saw", true); ("saw_blade", true); ("javelin", true);
       ("javelin_head", true); ("hammer", true); ("hammer_head", true);
       ("propick", true); ("propick_head", true); ("knife", true);
       ("knife_blade", true); ("scythe", true); ("scythe_blade", true);
       ("unfinished_chestplate", true); ("chestplate", true);
       ("unfinished_greaves", true); ("greaves", true);
       ("unfinished_boots", true); ("boots", true);
       ("unfinished_helmet", true); ("helmet", true)];
  STEEL :=
      list_to_set
      ["steel"; "blue_steel"; "red_steel"; "black_steel"];
  TOOLS :=
      ["pick"; "propick"; "shovel"; "axe"; "hoe"; "chisel"; "sword";
       "mace"; "saw"; "javelin"; "hammer"; "knife"; "scythe"];
  FLUIDS :=
      [("salt_water", "salt_water"); ("fresh_water", "fresh_water");
       ("hot_water", "hot_water"); ("finite_salt_water", "salt_water");
       ("finite_fresh_water", "fresh_water");
       ("finite_hot_water", "hot_water"); ("rum", "rum"); ("beer", "beer");
       ("whiskey", "whiskey"); ("rye_whiskey", "rye_whiskey");
       ("corn_whiskey", "corn_whiskey"); ("sake", "sake");
       ("vodka", "vodka"); ("cider", "cider"); ("vinegar", "vinegar");
       ("brine", "brine"); ("milk", "milk"); ("olive_oil", "olive_oil");
       ("tannin", "tannin"); ("limewater", "limewater");
       ("milk_curdled", "milk_curdled"); ("milk_vinegar", "milk_vinegar")]
|}.

(** [{...}] as a value. *)
Definition obj (entries : dict) : value := VDict (dict_of entries).

(** Special 'hardcoded' cases *)
Definition DOOR_VARIANTS : dict :=
  dict_of
    [("normal",
      VNone);
     ("facing=east,half=lower,hinge=left,open=false",
      obj [("model", VStr "door_bottom")]);
     ("facing=south,half=lower,hinge=left,open=false",
      obj [("model", VStr "door_bottom"); ("y", VInt 90)]);
     ("facing=west,half=lower,hinge=left,open=false",
      obj [("model", VStr "door_bottom"); ("y", VInt 180)]);
     ("facing=north,half=lower,hinge=left,open=false",
      obj [("model", VStr "door_bottom"); ("y", VInt 270)]);
     ("facing=east,half=lower,hinge=right,open=false",
      obj [("model", VStr "door_bottom_rh")]);
     ("facing=south,half=lower,hinge=right,open=false",
      obj [("model", VStr "door_bottom_rh"); ("y", VInt 90)]);
     ("facing=west,half=lower,hinge=right,open=false",
      obj [("model", VStr "door_bottom_rh"); ("y", VInt 180)]);
     ("facing=north,half=lower,hinge=right,open=false",
      obj [("model", VStr "door_bottom_rh"); ("y", VInt 270)]);
     ("facing=east,half=lower,hinge=left,open=true",
      obj [("model", VStr "door_bottom_rh"); ("y", VInt 90)]);
     ("facing=south,half=lower,hinge=left,open=true",
      obj [("model", VStr "door_bottom_rh"); ("y", VInt 180)]);
     ("facing=west,half=lower,hinge=left,open=true",
      obj [("model", VStr "door_bottom_rh"); ("y", VInt 270)]);
     ("facing=north,half=lower,hinge=left,open=true",
      obj [("model", VStr "door_bottom_rh")]);
     ("facing=east,half=lower,hinge=right,open=true",
      obj [("model", VStr "door_bottom"); ("y", VInt 270)]);
     ("facing=south,half=lower,hinge=right,open=true",
      obj [("model", VStr "door_bottom")]);
     ("facing=west,half=lower,hinge=right,open=true",
      obj [("model", VStr "door_bottom"); ("y", VInt 90)]);
     ("facing=north,half=lower,hinge=right,open=true",
      obj [("model", VStr "door_bottom"); ("y", VInt 180)]);
     ("facing=east,half=upper,hinge=left,open=false",
      obj [("model", VStr "door_top")]);
     ("facing=south,half=upper,hinge=left,open=false",
      obj [("model", VStr "door_top"); ("y", VInt 90)]);
     ("facing=west,half=upper,hinge=left,open=false",
      obj [("model", VStr "door_top"); ("y", VInt 180)]);
     ("facing=north,half=upper,hinge=left,open=false",
      obj [("model", VStr "door_top"); ("y", VInt 270)]);
     ("facing=east,half=upper,hinge=right,open=false",
      obj [("model", VStr "door_top_rh")]);
     ("facing=south,half=upper,hinge=right,open=false",
      obj [("model", VStr "door_top_rh"); ("y", VInt 90)]);
     ("facing=west,half=upper,hinge=right,open=false",
      obj [("model", VStr "door_top_rh"); ("y", VInt 180)]);
     ("facing=north,half=upper,hinge=right,open=false",
      obj [("model", VStr "door_top_rh"); ("y", VInt 270)]);
     ("facing=east,half=upper,hinge=left,open=true",
      obj [("model", VStr "door_top_rh"); ("y", VInt 90)]);
     ("facing=south,half=upper,hinge=left,open=true",
      obj [("model", VStr "door_top_rh"); ("y", VInt 180)]);
     ("facing=west,half=upper,hinge=left,open=true",
      obj [("model", VStr "door_top_rh"); ("y", VInt 270)]);
     ("facing=north,half=upper,hinge=left,open=true",
      obj [("model", VStr "door_top_rh")]);
     ("facing=east,half=upper,hinge=right,open=true",
      obj [("model", VStr "door_top"); ("y", VInt 270)]);
     ("facing=south,half=upper,hinge=right,open=true",
      obj [("model", VStr "door_top")]);
     ("facing=west,half=upper,hinge=right,open=true",
      obj [("model", VStr "door_top"); ("y", VInt 90)]);
     ("facing=north,half=upper,hinge=right,open=true",
      obj [("model", VStr "door_top"); ("y", VInt 180)])].

Definition TRAPDOOR_VARIANTS : dict :=
  dict_of
    [("normal",
      VNone);
     ("facing=north,half=bottom,open=false",
      obj [("model", VStr "trapdoor_bottom")]);
     ("facing=south,half=bottom,open=false",
      obj [("model", VStr "trapdoor_bottom")]);
     ("facing=east,half=bottom,open=false",
      obj [("model", VStr "trapdoor_bottom")]);
     ("facing=west,half=bottom,open=false",
      obj [("model", VStr "trapdoor_bottom")]);
     ("facing=north,half=top,open=false",
      obj [("model", VStr "trapdoor_top")]);
     ("facing=south,half=top,open=false",
      obj [("model", VStr "trapdoor_top")]);
     ("facing=east,half=top,open=false",
      obj [("model", VStr "trapdoor_top")]);
     ("facing=west,half=top,open=false",
      obj [("model", VStr "trapdoor_top")]);
     ("facing=north,half=bottom,open=true",
      obj [("model", VStr "trapdoor_open")]);
     ("facing=south,half=bottom,open=true",
      obj [("model", VStr "trapdoor_open"); ("y", VInt 180)]);
     ("facing=east,half=bottom,open=true",
      obj [("model", VStr "trapdoor_open"); ("y", VInt 90)]);
     ("facing=west,half=bottom,open=true",
      obj [("model", VStr "trapdoor_open"); ("y", VInt 270)]);
     ("facing=north,half=top,open=true",
      obj [("model", VStr "trapdoor_open")]);
     ("facing=south,half=top,open=true",
      obj [("model", VStr "trapdoor_open"); ("y", VInt 180)]);
     ("facing=east,half=top,open=true",
      obj [("model", VStr "trapdoor_open"); ("y", VInt 90)]);
     ("facing=west,half=top,open=true",
      obj [("model", VStr "trapdoor_open"); ("y", VInt 270)])].

Definition STAIR_VARIANTS : dict :=
  dict_of
    [("normal",
      obj [("model", VStr "stairs")]);
     ("facing=east,half=bottom,shape=straight",
      obj [("model", VStr "stairs")]);
     ("facing=west,half=bottom,shape=straight",
      obj [("model", VStr "stairs"); ("y", VInt 180)]);
     ("facing=south,half=bottom,shape=straight",
      obj [("model", VStr "stairs"); ("y", VInt 90)]);
     ("facing=north,half=bottom,shape=straight",
      obj [("model", VStr "stairs"); ("y", VInt 270)]);
     ("facing=east,half=bottom,shape=outer_right",
      obj [("model", VStr "outer_stairs")]);
     ("facing=west,half=bottom,shape=outer_right",
      obj [("model", VStr "outer_stairs"); ("y", VInt 180)]);
     ("facing=south,half=bottom,shape=outer_right",
      obj [("model", VStr "outer_stairs"); ("y", VInt 90)]);
     ("facing=north,half=bottom,shape=outer_right",
      obj [("model", VStr "outer_stairs"); ("y", VInt 270)]);
     ("facing=east,half=bottom,shape=outer_left",
      obj [("model", VStr "outer_stairs"); ("y", VInt 270)]);
     ("facing=west,half=bottom,shape=outer_left",
      obj [("model", VStr "outer_stairs"); ("y", VInt 90)]);
     ("facing=south,half=bottom,shape=outer_left",
      obj [("model", VStr "outer_stairs")]);
     ("facing=north,half=bottom,shape=outer_left",
      obj [("model", VStr "outer_stairs"); ("y", VInt 180)]);
     ("facing=east,half=bottom,shape=inner_right",
      obj [("model", VStr "inner_stairs")]);
     ("facing=west,half=bottom,shape=inner_right",
      obj [("model", VStr "inner_stairs"); ("y", VInt 180)]);
     ("facing=south,half=bottom,shape=inner_right",
      obj [("model", VStr "inner_stairs"); ("y", VInt 90)]);
     ("facing=north,half=bottom,shape=inner_right",
      obj [("model", VStr "inner_stairs"); ("y", VInt 270)]);
     ("facing=east,half=bottom,shape=inner_left",
      obj [("model", VStr "inner_stairs"); ("y", VInt 270)]);
     ("facing=west,half=bottom,shape=inner_left",
      obj [("model", VStr "inner_stairs"); ("y", VInt 90)]);
     ("facing=south,half=bottom,shape=inner_left",
      obj [("model", VStr "inner_stairs")]);
     ("facing=north,half=bottom,shape=inner_left",
      obj [("model", VStr "inner_stairs"); ("y", VInt 180)]);
     ("facing=east,half=top,shape=straight",
      obj [("model", VStr "stairs"); ("x", VInt 180)]);
     ("facing=west,half=top,shape=straight",
      obj [("model", VStr "stairs"); ("x", VInt 180); ("y", VInt 180)]);
     ("facing=south,half=top,shape=straight",
      obj [("model", VStr "stairs"); ("x", VInt 180); ("y", VInt 90)]);
     ("facing=north,half=top,shape=straight",
      obj [("model", VStr "stairs"); ("x", VInt 180); ("y", VInt 270)]);
     ("facing=east,half=top,shape=outer_right",
      obj [("model", VStr "outer_stairs"); ("x", VInt 180); ("y", VInt 90)]);
     ("facing=west,half=top,shape=outer_right",
      obj [("model", VStr "outer_stairs"); ("x", VInt 180); ("y", VInt 270)]);
     ("facing=south,half=top,shape=outer_right",
      obj [("model", VStr "outer_stairs"); ("x", VInt 180); ("y", VInt 180)]);
     ("facing=north,half=top,shape=outer_right",
      obj [("model", VStr "outer_stairs"); ("x", VInt 180)]);
     ("facing=east,half=top,shape=outer_left",
      obj [("model", VStr "outer_stairs"); ("x", VInt 180)]);
     ("facing=west,half=top,shape=outer_left",
      obj [("model", VStr "outer_stairs"); ("x", VInt 180); ("y", VInt 180)]);
     ("facing=south,half=top,shape=outer_left",
      obj [("model", VStr "outer_stairs"); ("x", VInt 180); ("y", VInt 90)]);
     ("facing=north,half=top,shape=outer_left",
      obj [("model", VStr "outer_stairs"); ("x", VInt 180); ("y", VInt 270)]);
     ("facing=east,half=top,shape=inner_right",
      obj [("model", VStr "inner_stairs"); ("x", VInt 180); ("y", VInt 90)]);
     ("facing=west,half=top,shape=inner_right",
      obj [("model", VStr "inner_stairs"); ("x", VInt 180); ("y", VInt 270)]);
     ("facing=south,half=top,shape=inner_right",
      obj [("model", VStr "inner_stairs"); ("x", VInt 180); ("y", VInt 180)]);
     ("facing=north,half=top,shape=inner_right",
      obj [("model", VStr "inner_stairs"); ("x", VInt 180)]);
     ("facing=east,half=top,shape=inner_left",
      obj [("model", VStr "inner_stairs"); ("x", VInt 180)]);
     ("facing=west,half=top,shape=inner_left",
      obj [("model", VStr "inner_stairs"); ("x", VInt 180); ("y", VInt 180)]);
     ("facing=south,half=top,shape=inner_left",
      obj [("model", VStr "inner_stairs"); ("x", VInt 180); ("y", VInt 90)]);
     ("facing=north,half=top,shape=inner_left",
      obj [("model", VStr "inner_stairs"); ("x", VInt 180); ("y", VInt 270)])].

(** ** Strings in the driver *)

(** [s.replace(old, new)] for a non-empty [old]; [skip] counts the
    characters of a match still to be dropped. *)
Fixpoint str_replace_from (old new : string) (skip : nat) (s : string)
  : string :=
  match s with
  | EmptyString => ""
  | String c r =>
      match skip with
      | S k => str_replace_from old new k r
      | O =>
          if String.prefix old s
          then new +:+ str_replace_from old new (String.length old - 1) r
          else String c (str_replace_from old new 0 r)
      end
  end.

Definition str_replace (old new s : string) : string :=
  str_replace_from old new 0 s.

(** [s.split(c)[0]] *)
Fixpoint str_split0 (c : ascii) (s : string) : string :=
  match s with
  | EmptyString => ""
  | String a r => if Ascii.eqb a c then "" else String a (str_split0 c r)
  end.

(** [x in l] *)
Definition str_in (x : string) (l : list string) : bool :=
  bool_decide (x ∈ l).

(** ** The driver loops *)

(** [for x in xs: body] *)
Definition for_ {A} (xs : list A) (body : A → list event) : list event :=
  flat_map body xs.

Definition sides : list string := ["north"; "south"; "east"; "west"].

(** The variant table of a button (stone and wood). *)
Definition button_variants : dict :=
  dict_of
    [("powered",
      obj [("false", obj []); ("true", obj [("model", VStr "button_pressed")])]);
     ("facing",
      obj [("up", obj []);
           ("down", obj [("x", VInt 180)]);
           ("east", obj [("x", VInt 90); ("y", VInt 90)]);
           ("west", obj [("x", VInt 90); ("y", VInt 270)]);
           ("south", obj [("x", VInt 90); ("y", VInt 180)]);
           ("north", obj [("x", VInt 90)])]);
     ("inventory", VList [obj [("model", VStr "button_inventory")]])].

(** The variant table of a half slab (stone and wood). *)
Definition slab_variants : dict :=
  dict_of
    [("half",
      obj [("bottom", obj []); ("top", obj [("model", VStr "upper_slab")])])].

(** The grass overlays: one entry per side. *)
Definition grass_variants (top : string) : dict :=
  dict_of
    (map (λ side,
            (side,
             obj [("true", obj [("textures", obj [(side, VStr top)])]);
                  ("false", obj [])]))
       sides).

(** BLOCKSTATES: fluids. *)
Definition fluid_blocks (T : tables) : list event :=
  for_ (FLUIDS T) (λ nf,
    let name := nf.1 in
    let fluid := nf.2 in
    blockstate ["fluid"; name] (Some "forge:fluid") []
      (Some (dict_of
         [("normal",
           obj [("transform", VStr "forge:default-item");
                ("custom", obj [("fluid", VStr fluid)])])]))).

(** BLOCKSTATES: rock stuff. *)
Definition rock_blocks (T : tables) : list event :=
  for_ (ROCK_TYPES T) (λ rock_type,
    (* FULL BLOCKS *)
    for_ (FULLBLOCK_TYPES T) (λ block_type,
      cube_all [block_type; rock_type]
        ("tfc:blocks/stonetypes/" +:+ block_type +:+ "/" +:+ rock_type)
        None "cube_all")
    (* ORES *)
    ++ for_ (ORE_TYPES T).*1 (λ block_type,
      blockstate ["ore"; block_type; rock_type] (Some "tfc:ore")
        [(KTuple ["all"; "particle"], "tfc:blocks/stonetypes/raw/" +:+ rock_type);
         (KStr "overlay", "tfc:blocks/ores/" +:+ block_type)]
        None)
    (* GRASS *)
    ++ for_ (GRASS_TYPES T) (λ block_type,
      blockstate [block_type; rock_type] (Some "tfc:grass")
        [(KTuple ["all"; "particle"], "tfc:blocks/stonetypes/dirt/" +:+ rock_type);
         (KStr "particle", "tfc:blocks/stonetypes/dirt/" +:+ rock_type);
         (KStr "top", "tfc:blocks/" +:+ block_type +:+ "_top");
         (KTuple ["north"; "south"; "east"; "west"],
          "tfc:blocks/" +:+ block_type +:+ "_side")]
        (Some (grass_variants ("tfc:blocks/" +:+ block_type +:+ "_top"))))
    (* CLAY GRASS *)
    ++ blockstate ["clay_grass"; rock_type] (Some "tfc:grass")
        [(KTuple ["all"; "particle"], "tfc:blocks/stonetypes/clay/" +:+ rock_type);
         (KStr "top", "tfc:blocks/grass_top");
         (KTuple ["north"; "south"; "east"; "west"], "tfc:blocks/grass_side")]
        (Some (grass_variants "tfc:blocks/grass_top"))
    (* WALLS (cobble & bricks only) *)
    ++ for_ ["cobble"; "bricks"] (λ block_type,
      blockstate ["wall"; block_type; rock_type] (Some "tfc:empty")
        [(KTuple ["wall"; "particle"],
          "tfc:blocks/stonetypes/" +:+ block_type +:+ "/" +:+ rock_type)]
        (Some (dict_of
           [("normal", VNone);
            ("inventory", obj [("model", VStr "wall_inventory")]);
            ("north",
             obj [("true", obj [("submodel", VStr "wall_side")]);
                  ("false", obj [])]);
            ("east",
             obj [("true", obj [("submodel", VStr "wall_side"); ("y", VInt 90)]);
                  ("false", obj [])]);
            ("south",
             obj [("true", obj [("submodel", VStr "wall_side"); ("y", VInt 180)]);
                  ("false", obj [])]);
            ("west",
             obj [("true", obj [("submodel", VStr "wall_side"); ("y", VInt 270)]);
                  ("false", obj [])]);
            ("up",
             obj [("true", obj [("submodel", VStr "wall_post"); ("y", VInt 270)]);
                  ("false", obj [])])])))
    (* (ROCK) STAIRS & SLABS *)
    ++ for_ ["smooth"; "cobble"; "bricks"] (λ block_type,
      blockstate ["stairs"; block_type; rock_type] None
        [(KTuple ["top"; "bottom"; "side"],
          "tfc:blocks/stonetypes/" +:+ block_type +:+ "/" +:+ rock_type)]
        (Some STAIR_VARIANTS)
      ++ blockstate ["slab"; "half"; block_type; rock_type] (Some "half_slab")
        [(KTuple ["top"; "bottom"; "side"],
          "tfc:blocks/stonetypes/" +:+ block_type +:+ "/" +:+ rock_type)]
        (Some slab_variants)
      ++ cube_all ["slab"; "full"; block_type; rock_type]
        ("tfc:blocks/stonetypes/" +:+ block_type +:+ "/" +:+ rock_type)
        None "cube_all")
    (* (STONE) BUTTON *)
    ++ blockstate ["stone"; "button"; rock_type] (Some "button")
        [(KTuple ["texture"; "particle"],
          "tfc:blocks/stonetypes/raw/" +:+ rock_type)]
        (Some button_variants)).

(** BLOCKSTATES: wood stuff. *)
Definition wood_blocks (T : tables) : list event :=
  for_ (WOOD_TYPES T) (λ wood_type,
    (* LOG BLOCKS *)
    blockstate ["wood"; "log"; wood_type] (Some "cube_column")
      [(KTuple ["particle"; "side"], "tfc:blocks/wood/log/" +:+ wood_type);
       (KStr "end", "tfc:blocks/wood/top/" +:+ wood_type);
       (KStr "layer0", "tfc:items/wood/log/" +:+ wood_type)]
      (Some (dict_of
         [("axis",
           obj [("y", obj []);
                ("z", obj [("x", VInt 90)]);
                ("x", obj [("x", VInt 90); ("y", VInt 90)]);
                ("none",
                 obj [("textures",
                       obj [("end", VStr ("tfc:blocks/wood/log/" +:+ wood_type))])])]);
          ("small",
           obj [("true", obj [("model", VStr "tfc:small_log")]);
                ("false", obj [])])]))
    (* PLANKS BLOCKS *)
    ++ cube_all ["wood"; "planks"; wood_type]
      ("tfc:blocks/wood/planks/" +:+ wood_type) None "cube_all"
    (* LEAVES BLOCKS *)
    ++ cube_all ["wood"; "leaves"; wood_type]
      ("tfc:blocks/wood/leaves/" +:+ wood_type) None "leaves"
    (* FENCES *)
    ++ blockstate ["wood"; "fence"; wood_type] (Some "fence_post")
      [(KStr "texture", "tfc:blocks/wood/planks/" +:+ wood_type)]
      (Some (dict_of
         [("inventory", obj [("model", VStr "fence_inventory")]);
          ("north",
           obj [("true", obj [("submodel", VStr "fence_side")]);
                ("false", obj [])]);
          ("east",
           obj [("true", obj [("submodel", VStr "fence_side"); ("y", VInt 90)]);
                ("false", obj [])]);
          ("south",
           obj [("true", obj [("submodel", VStr "fence_side"); ("y", VInt 180)]);
                ("false", obj [])]);
          ("west",
           obj [("true", obj [("submodel", VStr "fence_side"); ("y", VInt 270)]);
                ("false", obj [])])]))
    (* FENCE GATES *)
    ++ blockstate ["wood"; "fence_gate"; wood_type] (Some "fence_gate_closed")
      [(KStr "texture", "tfc:blocks/wood/planks/" +:+ wood_type)]
      (Some (dict_of
         [("inventory", VList [obj []]);
          ("facing",
           obj [("south", obj []);
                ("west", obj [("y", VInt 90)]);
                ("north", obj [("y", VInt 180)]);
                ("east", obj [("y", VInt 270)])]);
          ("open",
           obj [("true", obj [("model", VStr "fence_gate_open")]);
                ("false", obj [])]);
          ("in_wall",
           obj [("true",
                 obj [("transform",
                       obj [("translation",
                             VList [VInt 0; VFloat (-3 # 16); VInt 0])])]);
                ("false", obj [])])]))
    (* SAPLINGS *)
    ++ blockstate ["wood"; "sapling"; wood_type] (Some "cross")
      [(KTuple ["cross"; "layer0"], "tfc:blocks/saplings/" +:+ wood_type)]
      (Some (dict_of
         [("inventory",
           obj [("model", VStr "builtin/generated");
                ("transform", VStr "forge:default-item")])]))
    (* DOORS *)
    ++ blockstate ["wood"; "door"; wood_type] None
      [(KStr "bottom", "tfc:blocks/wood/door/lower/" +:+ wood_type);
       (KStr "top", "tfc:blocks/wood/door/upper/" +:+ wood_type)]
      (Some DOOR_VARIANTS)
    (* (WOOD) STAIRS & SLABS *)
    ++ blockstate ["stairs"; "wood"; wood_type] None
      [(KTuple ["top"; "bottom"; "side"], "tfc:blocks/wood/planks/" +:+ wood_type)]
      (Some STAIR_VARIANTS)
    ++ blockstate ["slab"; "half"; "wood"; wood_type] (Some "half_slab")
      [(KTuple ["top"; "bottom"; "side"], "tfc:blocks/wood/planks/" +:+ wood_type)]
      (Some slab_variants)
    ++ cube_all ["slab"; "full"; "wood"; wood_type]
      ("tfc:blocks/wood/planks/" +:+ wood_type) None "cube_all"
    (* TRAPDOORS *)
    ++ blockstate ["wood"; "trapdoor"; wood_type] None
      [(KStr "texture", "tfc:blocks/wood/trapdoor/" +:+ wood_type)]
      (Some TRAPDOOR_VARIANTS)
    (* CHESTS *)
    ++ blockstate ["wood"; "chest"; wood_type] (Some "tfc:chest")
      [(KStr "texture", "tfc:model/wood/chest/" +:+ wood_type);
       (KStr "particle", "tfc:blocks/wood/planks/" +:+ wood_type)]
      None
    ++ blockstate ["wood"; "chest_trap"; wood_type] (Some "tfc:chest")
      [(KStr "texture", "tfc:model/wood/chest_trap/" +:+ wood_type);
       (KStr "particle", "tfc:blocks/wood/planks/" +:+ wood_type)]
      None
    (* (WOOD) BUTTON *)
    ++ blockstate ["wood"; "button"; wood_type] (Some "button")
      [(KTuple ["texture"; "particle"], "tfc:blocks/wood/planks/" +:+ wood_type)]
      (Some button_variants)
    (* BOOKSHELF *)
    ++ blockstate ["wood"; "bookshelf"; wood_type] (Some "tfc:bookshelf")
      [(KTuple ["all"; "particle"], "tfc:blocks/wood/planks/" +:+ wood_type);
       (KTuple ["north"; "south"; "east"; "west"], "tfc:blocks/wood/bookshelf")]
      None
    (* WORKBENCH *)
    ++ blockstate ["wood"; "workbench"; wood_type] (Some "tfc:workbench")
      [(KTuple ["all"; "particle"], "tfc:blocks/wood/planks/" +:+ wood_type);
       (KStr "top", "tfc:blocks/wood/workbench_top");
       (KTuple ["north"; "south"], "tfc:blocks/wood/workbench_front");
       (KTuple ["east"; "west"], "tfc:blocks/wood/workbench_side")]
      None).

Definition generated : string := "item/generated".

(** The two loops over [STEEL], a set: [steel] is the order in which this
    run iterates over it. *)
Definition steel_items (steel : list string) (kind : string) : list event :=
  for_ steel (λ metal,
    for_ ["high_carbon"; "weak"] (λ type,
      item [kind; "ingot"; type +:+ "_" +:+ metal]
        ["tfc:items/" +:+ kind +:+ "/ingot/" +:+ metal] generated)).

(** ITEMS, up to the first loop over [STEEL]. *)
Definition items_before_steel (T : tables) : list event :=
  (* ORES *)
  for_ (ORE_TYPES T) (λ ore,
    let ore_type := ore.1 in
    (if ore.2 then
       for_ ["poor"; "rich"; "small"] (λ grade,
         item ["ore"; grade; ore_type]
           ["tfc:items/ore/" +:+ grade +:+ "/" +:+ ore_type] generated)
     else [])
    ++ item ["ore"; "normal"; ore_type] ["tfc:items/ore/" +:+ ore_type] generated)
  (* ROCKS *)
  ++ for_ (ROCK_TYPES T) (λ rock_type,
    for_ ["rock"; "brick"] (λ item_type,
      item [item_type; rock_type]
        ["tfc:items/stonetypes/" +:+ item_type +:+ "/" +:+ rock_type] generated))
  (* DOORS *)
  ++ for_ (WOOD_TYPES T) (λ wood_type,
    item ["wood"; "log"; wood_type] ["tfc:items/wood/log/" +:+ wood_type] generated
    ++ item ["wood"; "door"; wood_type] ["tfc:items/wood/door/" +:+ wood_type]
         generated)
  (* GEMS *)
  ++ for_ (GEM_TYPES T) (λ gem,
    for_ (GEM_GRADES T) (λ grade,
      item ["gem"; grade; gem] ["tfc:items/gem/" +:+ grade +:+ "/" +:+ gem]
        generated))
  (* METALS *)
  ++ for_ (METAL_ITEMS T) (λ mi,
    let item_type := mi.1 in
    let tool_item := mi.2 in
    for_ (METAL_TYPES T) (λ mt,
      let metal := mt.1 in
      let tool_metal := mt.2 in
      if tool_item && negb tool_metal then []
      else
        let parent :=
          if str_in item_type (TOOLS T) then "item/handheld"
          else "item/generated" in
        let parent :=
          if str_in item_type ["knife"; "javelin"]
          then "tfc:item/handheld_flipped" else parent in
        item ["metal"; item_type; metal]
          ["tfc:items/metal/" +:+ str_replace "unfinished_" "" item_type
             +:+ "/" +:+ metal]
          parent)).

(** ITEMS, between the two loops over [STEEL]. *)
Definition items_between_steel (T : tables) : list event :=
  item ["metal"; "ingot"; "unknown"] ["tfc:items/metal/ingot/" +:+ "unknown"]
    generated
  (* WOOD STUFF *)
  ++ for_ (WOOD_TYPES T) (λ wood_type,
    item ["wood"; "lumber"; wood_type] ["tfc:items/wood/lumber/" +:+ wood_type]
      generated)
  (* ROCK TOOLS *)
  ++ for_ (ROCK_CATEGORIES T) (λ rock_cat,
    for_ ["axe"; "shovel"; "hoe"; "knife"; "javelin"; "hammer"] (λ item_type,
      let parent := "item/handheld" in
      let parent :=
        if str_in item_type ["knife"; "javelin"]
        then "tfc:item/handheld_flipped" else parent in
      item ["stone"; item_type; rock_cat] ["tfc:items/stone/" +:+ item_type]
        parent))
  (* POWDERS *)
  ++ for_ (POWDERS T) (λ powder,
    item ["powder"; powder] ["tfc:items/powder/" +:+ powder] generated)
  (* GOLDPAN *)
  ++ for_ ["empty"; "sand"; "gravel"; "clay"; "dirt"] (λ type,
    item ["goldpan"; type] ["tfc:items/goldpan/" +:+ type] generated)
  (* CERAMICS *)
  ++ (let _heads :=
        map (λ x, x +:+ "_head") (TOOLS T) ++ map (λ x, x +:+ "_blade") (TOOLS T)
      in
      for_ ["empty"; "unfired"; "copper"; "bronze"; "black_bronze";
            "bismuth_bronze"] (λ metal,
        for_ (METAL_ITEMS T).*1 (λ item_type,
          if negb (str_in item_type _heads) then []
          else
            item ["mold"; item_type; metal]
              ["tfc:items/mold/" +:+ metal +:+ "/"
                 +:+ str_split0 "_" item_type]
              generated)))
  ++ for_ ((METAL_TYPES T).*1 ++ ["unfired"; "empty"]) (λ metal,
    item ["mold"; "ingot"; metal] ["tfc:items/mold/ingot/" +:+ metal] generated)
  ++ item ["mold"; "ingot"; "unknown"] ["tfc:items/mold/ingot/unknown"] generated.

(** ITEMS, after the second loop over [STEEL]. *)
Definition items_after_steel (T : tables) : list event :=
  item ["ceramics"; "unfired"; "vessel"] ["tfc:items/ceramics/unfired/vessel"]
    generated
  ++ item ["ceramics"; "fired"; "vessel"] ["tfc:items/ceramics/fired/vessel"]
    generated
  ++ item ["ceramics"; "unfired"; "vessel_glazed"]
    ["tfc:items/ceramics/unfired/vessel";
     "tfc:items/ceramics/fired/vessel_overlay"] generated
  ++ item ["ceramics"; "fired"; "vessel_glazed"]
    ["tfc:items/ceramics/fired/vessel";
     "tfc:items/ceramics/fired/vessel_overlay"] generated
  ++ item ["ceramics"; "unfired"; "spindle"] ["tfc:items/ceramics/unfired/spindle"]
    generated
  ++ item ["ceramics"; "fired"; "spindle"] ["tfc:items/ceramics/fired/spindle"]
    generated
  ++ item ["ceramics"; "unfired"; "pot"] ["tfc:items/ceramics/unfired/pot"]
    generated
  ++ item ["ceramics"; "fired"; "pot"] ["tfc:items/ceramics/fired/pot"]
    generated
  ++ item ["ceramics"; "unfired"; "bowl"] ["tfc:items/ceramics/unfired/bowl"]
    generated
  ++ item ["ceramics"; "fired"; "bowl"] ["tfc:items/ceramics/fired/bowl"]
    generated
  ++ item ["ceramics"; "unfired"; "fire_brick"] ["tfc:items/ceramics/unfired/fire_brick"]
    generated
  ++ item ["ceramics"; "fired"; "fire_brick"] ["tfc:items/ceramics/fired/fire_brick"]
    generated
  ++ item ["ceramics"; "unfired"; "jug"] ["tfc:items/ceramics/unfired/jug"]
    generated
  ++ item ["ceramics"; "fired"; "jug"] ["tfc:items/ceramics/fired/jug"]
    generated
  ++ item ["ceramics"; "fire_clay"] ["tfc:items/ceramics/fire_clay"] generated
  (* FLAT *)
  ++ for_ (ROCK_TYPES T) (λ rock_cat,
    item ["flat"; rock_cat] ["tfc:items/flat/" +:+ rock_cat] generated)
  ++ item ["flat"; "leather"] ["tfc:items/flat/leather"] generated
  ++ item ["flat"; "clay"] ["tfc:items/flat/clay"] generated
  ++ item ["flat"; "fire_clay"] ["tfc:items/flat/fire_clay"] generated.

(** Everything the script emits after [os.chdir], in program order. *)
Definition driver (T : tables) (steel : list string) : list event :=
  fluid_blocks T ++ rock_blocks T ++ wood_blocks T
  ++ items_before_steel T
  ++ steel_items steel "metal"
  ++ items_between_steel T
  ++ steel_items steel "mold"
  ++ items_after_steel T.

(** A new process in the world [w]: it starts in the project root. *)
Definition start (w : world) : world :=
  World "" (dirs w) (files w) (clock w).

(** The world [w] at another time. *)
Definition at_time (t : Q) (w : world) : world :=
  World (cwd w) (dirs w) (files w) t.

(** One run of the script, started in the world [w]: its effects in program
    order.  [steel] is the order in which this run iterates over the set
    [STEEL]. *)
Definition generate (T : tables) (steel : list string) (w : world)
  : list event :=
  archive (start w) ++ driver T steel.

(** The world after the run. *)
Definition run (T : tables) (steel : list string) (w : world) : world :=
  exec (start w) (generate T steel w).

(** The output tree: the files below the assets directory. *)
Definition output_tree (w : world) : gmap string fdata :=
  filter (λ kv, String.prefix (assets +:+ "/") kv.1 = true) (files w).

(** ** Null-pruning on an object store *)

(** [del_none] changes its argument in place.  Here dicts and lists are
    objects in a store, held by reference, so that the identity of the
    object that is returned and the sharing of nested objects are visible. *)
Module Store.

Abbreviation loc := nat.

Inductive atom :=
| ABool (b : bool)
| AInt (z : Z)
| AFloat (q : Q)
| AStr (s : string).

(** What a variable, a dict entry or a list slot holds. *)
Inductive ref_value :=
| RNone
| RAtom (a : atom)
| RRef (l : loc).

Inductive object :=
| ODict (items : list (string * ref_value))
| OList (elems : list ref_value).

Abbreviation store := (gmap loc object).

(** [isinstance(value, dict)] *)
Definition isinstance_dict (σ : store) (value : ref_value) : bool :=
  match value with
  | RRef l => match σ !! l with Some (ODict _) => true | _ => false end
  | _ => false
  end.

(** [del d[key]]; a missing key raises [KeyError]. *)
Definition store_del (d : loc) (key : string) (σ : store) : option store :=
  match σ !! d with
  | Some (ODict items) =>
      if bool_decide (key ∈ keys items)
      then Some (<[d := ODict (dict_del key items)]> σ)
      else None
  | _ => None
  end.

(** One round of the loop of [del_none(d)]; [acc] is the store so far,
    or [None] after an exception, and [rec] is the nested call. *)
Definition del_none_step (rec : loc → store → option (store * ref_value))
    (d : loc) (acc : option store) (kv : string * ref_value)
  : option store :=
  σ ← acc;
  match kv.2 with
  | RNone => store_del d kv.1 σ
  | RRef l =>
      if isinstance_dict σ (RRef l) then fst <$> rec l σ else Some σ
  | RAtom _ => Some σ
  end.

(** [del_none(d)] on the store; [None] is an exception or the end of the
    fuel (a dict that contains itself).  The loop runs over the items the
    dict has when the call starts.  The result is the store after the
    call and what the call returns. *)
Fixpoint del_none (fuel : nat) (d : loc) (σ : store)
  : option (store * ref_value) :=
  match fuel with
  | O => None
  | S fuel' =>
      match σ !! d with
      | Some (ODict items) =>
          σ' ← foldl (del_none_step (del_none fuel') d) (Some σ) items;
          Some (σ', RRef d)
      | _ => None
      end
  end.

Definition atom_value (a : atom) : value :=
  match a with
  | ABool b => VBool b
  | AInt z => VInt z
  | AFloat q => VFloat q
  | AStr s => VStr s
  end.

(** The tree [json.dump] sees below a reference, with the objects it
    visits on the way, each as often as it is visited. *)
Fixpoint tree_of (n : nat) (σ : store) (r : ref_value)
  : option (value * list loc) :=
  match r with
  | RNone => Some (VNone, [])
  | RAtom a => Some (atom_value a, [])
  | RRef l =>
      match n with
      | O => None
      | S m =>
          match σ !! l with
          | Some (ODict items) =>
              kids ← mapM (λ kr, tv ← tree_of m σ kr.2;
                                 Some (kr.1, tv.1, tv.2)) items;
              Some (VDict (map fst kids), l :: concat (map snd kids))
          | Some (OList elems) =>
              kids ← mapM (tree_of m σ) elems;
              Some (VList (map fst kids), l :: concat (map snd kids))
          | None => None
          end
      end
  end.

(** What [tree_of] makes of an item of a dict: the key, the tree of the
    value and the objects visited. *)
Definition kid (n : nat) (σ : store) (kr : string * ref_value)
  : option (string * value * list loc) :=
  tv ← tree_of n σ kr.2; Some (kr.1, tv.1, tv.2).

(** The second store has the objects of the first and keeps its lists as
    they are. *)
Definition keeps_lists (σ σ' : store) : Prop :=
  dom σ' = dom σ
  ∧ ∀ l elems, σ !! l = Some (OList elems) → σ' !! l = Some (OList elems).

(** The two stores hold the same outside of the locations [fp]. *)
Definition same_outside (fp : list loc) (σ σ' : store) : Prop :=
  ∀ l, l ∉ fp → σ' !! l = σ !! l.

(** An example: [{'normal': [{'a': None}], 'x': None, 'y': {'z': None}}]
    at location 0. *)
Definition ex_store : store :=
  {[ 0 := ODict [("normal", RRef 1); ("x", RNone); ("y", RRef 3)];
     1 := OList [RRef 2];
     2 := ODict [("a", RNone)];
     3 := ODict [("z", RNone)] ]}.

End Store.

(** ** Notions used in the statements *)

(** What [del_none] leaves of the items of a dict whose keys are distinct:
    the entries with [None] go, a nested dict is replaced by [rec] of it,
    everything else stays, in the same order. *)
Fixpoint pruned (rec : value → value) (d : dict) : dict :=
  match d with
  | [] => []
  | (k, v) :: r =>
      if is_None v then pruned rec r
      else (k, if is_dict v then rec v else v) :: pruned rec r
  end.

(** No dict that is reached through dicts has a key with value [None]. *)
Fixpoint no_null_keys (v : value) : bool :=
  match v with
  | VDict d => forallb (λ kv, negb (is_None kv.2) && no_null_keys kv.2) d
  | _ => true
  end.

(** The slot names a key of a texture mapping stands for. *)
Definition slots (key : tkey) : list string :=
  match key with
  | KStr slot => [slot]
  | KTuple names => names
  end.

(** The entries a texture mapping asks for, one per slot name, in the
    order in which [blockstate] stores them. *)
Definition slot_entries (textures : list (tkey * string)) : dict :=
  flat_map (λ kv, map (λ x, (x, VStr kv.2)) (slots kv.1)) textures.

(** The entries the layers of [item] ask for: ["layer0"], ["layer1"], ...
    in the order of the layers. *)
Definition layer_entries (layers : list string) : dict :=
  imap (λ i v, ("layer" +:+ str_of_nat i, VStr v)) layers.

(** The default variant table of [blockstate]. *)
Definition default_variants : dict := [("normal", VList [VDict []])].

(** What the operating system puts in front of a relative path. *)
Definition dir_prefix (dir : string) : string :=
  if String.eqb dir "" || endswith_sep dir then dir else dir +:+ "/".

(** The effects of the emission primitives. *)
Definition is_emission (e : event) : bool :=
  match e with
  | EMakedirs _ | EWriteJson _ _ => true
  | _ => false
  end.

(** The descriptor files a list of effects writes when it runs in the
    directory [dir], in program order. *)
Definition writes (dir : string) (es : list event) : list (string * fdata) :=
  flat_map
    (λ e, match e with
          | EWriteJson p doc => [(resolve_in dir p, FJson doc)]
          | _ => []
          end) es.

(** The directories a list of effects makes when it runs in [dir]. *)
Definition made (dir : string) (es : list event) : list string :=
  flat_map
    (λ e, match e with
          | EMakedirs p => dir_chain (resolve_in dir p)
          | _ => []
          end) es.

(** A descriptor that is written carries the provenance marker of the
    function that wrote it. *)
Definition has_marker (e : event) : Prop :=
  match e with
  | EWriteJson _ doc =>
      ∃ d f, doc = VDict d
             ∧ dict_get "__comment" d
               = Some (VStr ("Generated by generateResources.py function: " +:+ f))
             ∧ (f = "blockstate" ∨ f = "model")
  | _ => True
  end.

(** An effect of an emission primitive that, when it writes a descriptor,
    writes one with the marker. *)
Definition emitted (e : event) : Prop := is_emission e = true ∧ has_marker e.

(** The directory the driver runs in. *)
Definition assets_dir : string := "src/main/resources/assets/tfc/".

(** The part of the output tree a run writes: the last descriptor written
    at each path below the assets directory. *)
Definition tree_written (T : tables) (steel : list string)
  : gmap string fdata :=
  filter (λ kv, String.prefix (assets +:+ "/") kv.1 = true)
    (list_to_map (reverse (writes assets_dir (driver T steel)))).

(** The tables of the end-to-end scenario: one rock, one full block. *)
Definition scenario_tables : tables := {|
  ROCK_TYPES := ["granite"];
  ROCK_CATEGORIES := [];
  FULLBLOCK_TYPES := ["raw"];
  GRASS_TYPES := [];
  ORE_TYPES := [];
  POWDERS := [];
  WOOD_TYPES := [];
  GEM_TYPES := [];
  GEM_GRADES := [];
  METAL_TYPES := [];
  METAL_ITEMS := [];
  STEEL := ∅;
  TOOLS := [];
  FLUIDS := []
|}.

(** A world with nothing in it, at the epoch. *)
Definition empty_world : world := World "" ∅ ∅ 0.

(** Every list that is reached through dicts holds no [None]. *)
Fixpoint lists_null_free (v : value) : bool :=
  match v with
  | VDict d => forallb (λ kv, lists_null_free kv.2) d
  | VList l => forallb null_free l
  | _ => true
  end.

(** A variant table [blockstate] can be given: a dict, or nothing. *)
Definition variants_ok (variants : option dict) : bool :=
  match variants with
  | Some vs => dict_ok (VDict vs) && lists_null_free (VDict vs)
  | None => true
  end.

(** A descriptor that is written is a tree of dicts with distinct keys
    that holds no [None] anywhere. *)
Definition written_clean (e : event) : Prop :=
  match e with
  | EWriteJson _ doc => dict_ok doc = true ∧ null_free doc = true
  | _ => True
  end.

(** The name of the archive that a run started in the world [w] writes. *)
Definition backup_name (w : world) : string :=
  "assets_backups/" +:+ str_of_Z (int_of (clock w)) +:+ ".zip".

(** The names the driver builds naming paths from: the names in the
    tables and in the order of [STEEL]. *)
Definition table_names (T : tables) (steel : list string) : list string :=
  ROCK_TYPES T ++ ROCK_CATEGORIES T ++ FULLBLOCK_TYPES T ++ GRASS_TYPES T
  ++ (ORE_TYPES T).*1 ++ POWDERS T ++ WOOD_TYPES T ++ GEM_TYPES T
  ++ GEM_GRADES T ++ (METAL_TYPES T).*1 ++ (METAL_ITEMS T).*1
  ++ (FLUIDS T).*1 ++ steel.

(** A path segment: not empty, without a separator. *)
Definition segment (s : string) : bool :=
  negb (String.eqb s "") && negb (has_sep s).

(** A descriptor that is written goes below [blockstates] or below
    [models/item]. *)
Definition confined (e : event) : Prop :=
  match e with
  | EWriteJson p _ =>
      String.prefix "blockstates/" p = true
      ∨ String.prefix "models/item/" p = true
  | _ => True
  end.

(** Inputs the statements below are tried on. *)
Definition sapling_variants : dict :=
  dict_of
    [("inventory",
      obj [("model", VStr "builtin/generated");
           ("transform", VStr "forge:default-item")])].

Definition ex_nested : dict :=
  [("a", VNone); ("b", VDict [("c", VNone); ("d", VInt 1)]); ("e", VStr "x")].

(** * Properties *)

(** ** The embedding on small inputs *)

Example del_none_ex :
  del_none [("a", VNone); ("b", VDict [("c", VNone); ("d", VInt 1)]);
            ("e", VList [VNone; VDict [("f", VNone)]])]
  = [("b", VDict [("d", VInt 1)]); ("e", VList [VNone; VDict [("f", VNone)]])].
Proof. reflexivity. Qed.

Example os_path_join_ex :
  os_path_join "blockstates" ["raw"; "granite"] +:+ ".json"
  = "blockstates/raw/granite.json"
  ∧ os_path_join "models" ["item"; "/tmp"; "x"] = "/tmp/x"
  ∧ os_path_join "a/" ["b"] = "a/b"
  ∧ os_path_join "" ["b"] = "b".
Proof. by split_and!. Qed.

Example os_path_dirname_ex :
  os_path_dirname "blockstates/raw/granite.json" = "blockstates/raw"
  ∧ os_path_dirname "granite.json" = ""
  ∧ os_path_dirname "/granite.json" = "/"
  ∧ os_path_dirname "a//b" = "a".
Proof. by split_and!. Qed.

Example dir_chain_ex :
  dir_chain "blockstates/wood/log" = ["blockstates"; "blockstates/wood";
                                      "blockstates/wood/log"].
Proof. reflexivity. Qed.

Example str_replace_ex :
  str_replace "unfinished_" "" "unfinished_chestplate" = "chestplate"
  ∧ str_replace "unfinished_" "" "pick_head" = "pick_head"
  ∧ str_split0 "_" "sword_blade" = "sword"
  ∧ str_split0 "_" "anvil" = "anvil".
Proof. by split_and!. Qed.

Example str_of_ex :
  str_of_nat 0 = "0" ∧ str_of_nat 12 = "12"
  ∧ str_of_Z 1700000000 = "1700000000" ∧ str_of_Z (-5) = "-5"
  ∧ int_of (7 # 2) = 3%Z ∧ int_of (-7 # 2) = (-3)%Z.
Proof. by split_and!. Qed.

Example cube_all_ex :
  cube_all ["raw"; "granite"] "tfc:blocks/stonetypes/raw/granite" None "cube_all"
  = [EMakedirs "blockstates/raw";
     EWriteJson "blockstates/raw/granite.json"
       (VDict
          [("__comment",
            VStr "Generated by generateResources.py function: blockstate");
           ("forge_marker", VInt 1);
           ("defaults",
            VDict [("model", VStr "cube_all");
                   ("textures",
                    VDict [("all", VStr "tfc:blocks/stonetypes/raw/granite")])]);
           ("variants", VDict [("normal", VList [VDict []])])])].
Proof. reflexivity. Qed.

Example item_ex :
  item ["ceramics"; "fired"; "vessel_glazed"]
    ["tfc:items/ceramics/fired/vessel";
     "tfc:items/ceramics/fired/vessel_overlay"] generated
  = [EMakedirs "models/item/ceramics/fired";
     EWriteJson "models/item/ceramics/fired/vessel_glazed.json"
       (VDict
          [("__comment",
            VStr "Generated by generateResources.py function: model");
           ("parent", VStr "item/generated");
           ("textures",
            VDict [("layer0", VStr "tfc:items/ceramics/fired/vessel");
                   ("layer1",
                    VStr "tfc:items/ceramics/fired/vessel_overlay")])])].
Proof. reflexivity. Qed.

(** The script writes 2476 descriptors, each after making its directory. *)
Example driver_size :
  length (driver source_tables (elements (STEEL source_tables))) = 4952.
Proof. vm_compute. reflexivity. Qed.

(** The store of the example before and after the call: the key with
    [None] is gone from the dict at 0 and from the nested dict at 3, the
    list at 1 and the dict at 2 below it are as they were. *)
Example store_del_none_ex :
  Store.del_none 3 0 Store.ex_store
  = Some ({[ 0 := Store.ODict [("normal", Store.RRef 1); ("y", Store.RRef 3)];
             1 := Store.OList [Store.RRef 2];
             2 := Store.ODict [("a", Store.RNone)];
             3 := Store.ODict [] ]}, Store.RRef 0).
Proof. vm_compute. reflexivity. Qed.

(** Structural induction through the two nested lists. *)
Lemma value_ind' (P : value → Prop)
    (HNone : P VNone)
    (HBool : ∀ b, P (VBool b))
    (HInt : ∀ z, P (VInt z))
    (HFloat : ∀ q, P (VFloat q))
    (HStr : ∀ s, P (VStr s))
    (HList : ∀ l, Forall P l → P (VList l))
    (HDict : ∀ d, Forall (λ kv, P kv.2) d → P (VDict d)) :
  ∀ v, P v.
Proof.
  fix IH 1. intros [| |z|q|s|l|d].
  - exact HNone.
  - apply HBool.
  - apply HInt.
  - apply HFloat.
  - apply HStr.
  - apply HList. induction l as [|x l IHl]; constructor; [apply IH | exact IHl].
  - apply HDict.
    induction d as [|[k x] d IHd]; constructor; [apply IH | exact IHd].
Qed.

(** ** Dictionaries *)

Section dict_facts.
Context {A : Type}.
Implicit Types (d done rest : list (string * A)) (k : string) (v : A).

Lemma keys_app d1 d2 : keys (d1 ++ d2) = keys d1 ++ keys d2.
Proof. unfold keys. apply fmap_app. Qed.

Lemma dict_get_None k d : dict_get k d = None ↔ k ∉ keys d.
Proof.
  induction d as [|[k' v'] d IH]; simpl.
  - split; [intros _; apply not_elem_of_nil | done].
  - case_decide as Hk; subst.
    + split; [done | intros []; left].
    + rewrite IH, not_elem_of_cons. naive_solver.
Qed.

Lemma dict_get_Some_elem k v d : dict_get k d = Some v → (k, v) ∈ d.
Proof.
  induction d as [|[k' v'] d IH]; simpl; [done|].
  case_decide; subst.
  - intros [= ->]. left.
  - intros. right. auto.
Qed.

Lemma dict_get_elem k v d : NoDup (keys d) → (k, v) ∈ d → dict_get k d = Some v.
Proof.
  induction d as [|[k' v'] d IH]; simpl; [by intros _ ?%elem_of_nil|].
  intros [Hk Hd]%NoDup_cons [[= -> ->]|Hin]%elem_of_cons.
  - by rewrite decide_True.
  - rewrite decide_False; [auto|].
    intros ->. apply Hk. by apply (list_elem_of_fmap_2 fst) in Hin.
Qed.

Lemma dict_get_app k d1 d2 :
  dict_get k (d1 ++ d2) =
    match dict_get k d1 with Some v => Some v | None => dict_get k d2 end.
Proof.
  induction d1 as [|[k' v'] d1 IH]; simpl; [done|]. by case_decide.
Qed.

Lemma dict_del_app_notin k v done rest :
  k ∉ keys done → dict_del k (done ++ (k, v) :: rest) = done ++ rest.
Proof.
  induction done as [|[k' v'] done IH]; simpl; intros Hk.
  - by rewrite decide_True.
  - apply not_elem_of_cons in Hk as [? ?].
    rewrite decide_False by done. by rewrite IH.
Qed.

Lemma dict_set_app_notin k v v' done rest :
  k ∉ keys done →
  dict_set k v' (done ++ (k, v) :: rest) = done ++ (k, v') :: rest.
Proof.
  induction done as [|[k' v''] done IH]; simpl; intros Hk.
  - by rewrite decide_True.
  - apply not_elem_of_cons in Hk as [? ?].
    rewrite decide_False by done. by rewrite IH.
Qed.

Lemma dict_set_notin k v d : k ∉ keys d → dict_set k v d = d ++ [(k, v)].
Proof.
  induction d as [|[k' v'] d IH]; simpl; intros Hk; [done|].
  apply not_elem_of_cons in Hk as [? ?].
  rewrite decide_False by done. by rewrite IH.
Qed.

Lemma dict_get_set k k' v d :
  dict_get k' (dict_set k v d) = if decide (k = k') then Some v else dict_get k' d.
Proof.
  induction d as [|[k0 v0] d IH]; simpl.
  - by repeat case_decide.
  - repeat (case_decide; simpl; subst); try done; try congruence.
Qed.

Lemma keys_dict_set k v d :
  keys (dict_set k v d) = if decide (k ∈ keys d) then keys d else keys d ++ [k].
Proof.
  induction d as [|[k0 v0] d IH]; [done|].
  cbn [dict_set]. change (keys ((k0, v0) :: d)) with (k0 :: keys d).
  destruct (decide (k0 = k)) as [->|Hk0].
  - rewrite decide_True by left. done.
  - change (keys ((k0, v0) :: dict_set k v d))
      with (k0 :: keys (dict_set k v d)).
    rewrite IH. destruct (decide (k ∈ keys d)) as [Hin|Hin].
    + by rewrite decide_True by by right.
    + rewrite decide_False; [done|]. rewrite not_elem_of_cons. naive_solver.
Qed.

Lemma NoDup_dict_set k v d : NoDup (keys d) → NoDup (keys (dict_set k v d)).
Proof.
  intros Hd. rewrite keys_dict_set. case_decide; [done|].
  apply NoDup_app. split_and!; [done | | apply NoDup_singleton].
  intros x Hx ->%list_elem_of_singleton. done.
Qed.

Lemma NoDup_dict_update d other :
  NoDup (keys d) → NoDup (keys (dict_update d other)).
Proof.
  unfold dict_update. revert d.
  induction other as [|[k v] other IH]; simpl; intros d Hd; [done|].
  apply IH. by apply NoDup_dict_set.
Qed.

(** After [d.update(other)] a key has the value [other] gives it, or else
    the one it had. *)
Lemma dict_get_update k d other :
  NoDup (keys other) →
  dict_get k (dict_update d other) =
    match dict_get k other with Some v => Some v | None => dict_get k d end.
Proof.
  unfold dict_update. revert d.
  induction other as [|[k0 v0] other IH]; simpl; intros d Hnd; [done|].
  apply NoDup_cons in Hnd as [Hk0 Hnd].
  rewrite IH by done. case_decide; subst.
  - apply dict_get_None in Hk0. rewrite Hk0, dict_get_set.
    by rewrite decide_True.
  - destruct (dict_get k other); [done|].
    rewrite dict_get_set. by rewrite decide_False.
Qed.

Lemma dict_update_fresh d other :
  NoDup (keys (d ++ other)) → dict_update d other = d ++ other.
Proof.
  unfold dict_update. revert d.
  induction other as [|[k v] other IH]; simpl; intros d Hnd.
  - by rewrite app_nil_r.
  - rewrite dict_set_notin.
    + rewrite IH; rewrite <- app_assoc; done.
    + rewrite keys_app in Hnd. apply NoDup_app in Hnd as (_ & Hd & _).
      intros Hk. apply (Hd k Hk). left.
Qed.

(** A dict display with distinct keys is the list of its entries. *)
Lemma dict_of_NoDup d : NoDup (keys d) → dict_of d = d.
Proof. intros Hd. unfold dict_of. by rewrite dict_update_fresh. Qed.
End dict_facts.

(** ** Null-pruning *)

Lemma NoDup_keys_middle {A} (done rest : list (string * A)) k v :
  NoDup (keys (done ++ (k, v) :: rest)) →
  (k ∉ keys done) ∧ (k ∉ keys rest) ∧ NoDup (keys (done ++ rest)).
Proof.
  rewrite !keys_app. change (keys ((k, v) :: rest)) with (k :: keys rest).
  rewrite !NoDup_app, NoDup_cons. intros (Hd & Hdis & Hk & Hr).
  split_and!; try done.
  - intros Hin. apply (Hdis k Hin). left.
  - intros x Hx Hx'. apply (Hdis x Hx). by right.
Qed.

(** The loop of [del_none] on a dict with distinct keys: what is done has
    been pruned, what is to do follows unchanged. *)
Lemma del_none_loop_spec rec (rest done : dict) :
  NoDup (keys (done ++ rest)) →
  del_none_loop rec rest (done ++ rest) = done ++ pruned rec rest.
Proof.
  revert done. induction rest as [|[k v] rest IH]; intros done Hnd; simpl.
  - done.
  - pose proof (NoDup_keys_middle _ _ _ _ Hnd) as (Hk & _ & Hnd').
    destruct (is_None v) eqn:HN.
    + rewrite dict_del_app_notin by done. by apply IH.
    + destruct (is_dict v) eqn:HD.
      * rewrite dict_set_app_notin by done.
        rewrite (cons_middle _ done rest), app_assoc, IH.
        -- by rewrite <- app_assoc.
        -- rewrite <- app_assoc. simpl.
           revert Hnd. by rewrite !keys_app.
      * rewrite (cons_middle _ done rest), app_assoc, IH.
        -- by rewrite <- app_assoc.
        -- by rewrite <- app_assoc.
Qed.

Lemma del_none_pruned (d : dict) :
  NoDup (keys d) → del_none d = pruned del_none_value d.
Proof. intros Hd. apply (del_none_loop_spec del_none_value d []). done. Qed.

Lemma del_none_value_dict (d : dict) : del_none_value (VDict d) = VDict (del_none d).
Proof. done. Qed.


Lemma dict_get_pruned rec k (d : dict) :
  NoDup (keys d) →
  dict_get k (pruned rec d) =
    match dict_get k d with
    | Some v => if is_None v then None else Some (if is_dict v then rec v else v)
    | None => None
    end.
Proof.
  induction d as [|[k' v'] d IH]; simpl; [done|].
  intros [Hk' Hd]%NoDup_cons. specialize (IH Hd).
  destruct (is_None v') eqn:HN; simpl.
  - rewrite IH. case_decide; [subst|done].
    apply dict_get_None in Hk'. by rewrite Hk', HN.
  - case_decide; [subst|done]. by rewrite HN.
Qed.

Lemma keys_pruned rec (d : dict) :
  keys (pruned rec d) = keys (filter (λ kv, is_None kv.2 = false) d).
Proof.
  induction d as [|[k v] d IH]; [done|].
  cbn [pruned]. destruct (is_None v) eqn:HN.
  - rewrite filter_cons_False; [done|]. simpl. by rewrite HN.
  - rewrite filter_cons_True by done.
    change (k :: keys (pruned rec d) = k :: keys (filter (λ kv, is_None kv.2 = false) d)).
    by rewrite IH.
Qed.

(** A dict without [None] and without nested dicts is not changed. *)
Lemma del_none_loop_flat rec (items cur : dict) :
  forallb (λ kv, negb (is_None kv.2) && negb (is_dict kv.2)) items = true →
  del_none_loop rec items cur = cur.
Proof.
  revert cur. induction items as [|[k v] items IH]; simpl; intros cur H; [done|].
  apply andb_prop in H as [[HN HD]%andb_prop H].
  apply negb_true_iff in HN, HD. rewrite HN, HD. by apply IH.
Qed.

Lemma del_none_value_no_null (v : value) :
  dict_ok v = true →
  no_null_keys (del_none_value v) = true
  ∧ (mapping_tree v = true → is_None v = false →
     null_free (del_none_value v) = true).
Proof.
  induction v as [| | | | |l IH|d IH] using value_ind'; try done.
  intros Hok. rewrite del_none_value_dict.
  simpl in Hok. apply andb_prop in Hok as [Hnd%bool_decide_eq_true Hok].
  rewrite del_none_pruned by done. clear Hnd.
  induction d as [|[k v] d IHd]; [done|].
  apply Forall_cons in IH as [IHv IH]. simpl in Hok, IHv.
  apply andb_prop in Hok as [Hv Hok].
  destruct (IHd IH Hok) as [IH1 IH2]. destruct (IHv Hv) as [IHv1 IHv2].
  simpl. destruct (is_None v) eqn:HN.
  - split; [done|]. intros [_ ?]%andb_prop ?. auto.
  - split.
    + simpl in *. rewrite IH1, andb_true_r.
      destruct (is_dict v) eqn:HD; [|by destruct v].
      rewrite IHv1, andb_true_r. by destruct v.
    + intros [Hm Hmt]%andb_prop _. simpl in *.
      rewrite (IH2 Hmt) by done. rewrite andb_true_r.
      destruct (is_dict v) eqn:HD; [by apply IHv2 | by destruct v].
Qed.

(** C3. [del_none] on a dict (keys distinct at every level): no key of the
    result, at any depth, has the value [None], and in a tree of mappings
    there is then no [None] at all; a key whose value is not [None] keeps
    its value, pruned in turn when the value is a dict; a key with value
    [None] is gone and no key is added; the keys that stay keep their
    order; a dict whose values are neither [None] nor dicts is not
    changed. *)
Theorem del_none_spec (d : dict) :
  dict_ok (VDict d) = true →
  no_null_keys (VDict (del_none d)) = true
  ∧ (mapping_tree (VDict d) = true → null_free (VDict (del_none d)) = true)
  ∧ (∀ k v, dict_get k d = Some v → v ≠ VNone →
       dict_get k (del_none d)
       = Some (match v with VDict sub => VDict (del_none sub) | _ => v end))
  ∧ (∀ k, dict_get k d = Some VNone ∨ dict_get k d = None →
       dict_get k (del_none d) = None)
  ∧ keys (del_none d) = keys (filter (λ kv, is_None kv.2 = false) d)
  ∧ (forallb (λ kv, negb (is_None kv.2) && negb (is_dict kv.2)) d = true →
       del_none d = d).
Proof.
  intros Hok. pose proof (del_none_value_no_null (VDict d) Hok) as [H1 H2].
  assert (mapping_tree (VDict d) = true → null_free (VDict (del_none d)) = true)
    by (intros; by apply H2).
  simpl in Hok. apply andb_prop in Hok as [Hnd%bool_decide_eq_true _].
  split_and!; try done.
  - intros k v Hk Hv. rewrite del_none_pruned, dict_get_pruned, Hk by done.
    by destruct v.
  - intros k Hk. rewrite del_none_pruned, dict_get_pruned by done.
    by destruct Hk as [-> | ->].
  - rewrite del_none_pruned by done. apply keys_pruned.
  - apply del_none_loop_flat.
Qed.

Lemma del_none_spec_witness :
  dict_ok (VDict ex_nested) = true
  ∧ null_free (VDict (del_none ex_nested)) = true
  ∧ dict_get "b" (del_none ex_nested) = Some (VDict [("d", VInt 1)]).
Proof.
  split; [reflexivity|].
  destruct (del_none_spec ex_nested eq_refl) as (_ & H2 & H3 & _).
  split; [apply H2; reflexivity|].
  apply (H3 "b" (VDict [("c", VNone); ("d", VInt 1)]));
    [reflexivity | discriminate].
Defined.
(** ** [d.update] with repeated keys *)

Lemma dict_update_app {A} (d e1 e2 : list (string * A)) :
  dict_update d (e1 ++ e2) = dict_update (dict_update d e1) e2.
Proof. unfold dict_update. apply foldl_app. Qed.

(** After [d.update(other)] a key has the last value [other] gives it, or
    else the one it had. *)
Lemma dict_get_update_last {A} k (d other : list (string * A)) :
  dict_get k (dict_update d other) =
    match dict_get k (reverse other) with
    | Some v => Some v
    | None => dict_get k d
    end.
Proof.
  revert d. induction other as [|[k0 v0] other IH]; intros d; [done|].
  change (dict_update d ((k0, v0) :: other))
    with (dict_update (dict_set k0 v0 d) other).
  rewrite IH, reverse_cons, dict_get_app.
  destruct (dict_get k (reverse other)); [done|].
  rewrite dict_get_set. simpl. by repeat case_decide.
Qed.

Lemma keys_reverse {A} (d : list (string * A)) : keys (reverse d) = reverse (keys d).
Proof. unfold keys. by rewrite fmap_reverse. Qed.

Lemma dict_get_const {A} k (v : A) (d : list (string * A)) :
  (∀ kv, kv ∈ d → kv.2 = v) → k ∈ keys d → dict_get k d = Some v.
Proof.
  intros Hall Hk. destruct (dict_get k d) as [v'|] eqn:Hget.
  - apply dict_get_Some_elem in Hget. by rewrite <- (Hall _ Hget).
  - by apply dict_get_None in Hget.
Qed.

Lemma not_elem_of_keys_update {A} k (d other : list (string * A)) :
  k ∉ keys (dict_update d other) ↔ (k ∉ keys d) ∧ (k ∉ keys other).
Proof.
  rewrite <- !dict_get_None, dict_get_update_last.
  assert (dict_get k other = None ↔ dict_get k (reverse other) = None) as ->.
  { rewrite !dict_get_None, keys_reverse. by rewrite elem_of_reverse. }
  destruct (dict_get k (reverse other)); naive_solver.
Qed.

Lemma elem_of_keys_update {A} k (d other : list (string * A)) :
  k ∈ keys (dict_update d other) ↔ k ∈ keys d ∨ k ∈ keys other.
Proof.
  pose proof (not_elem_of_keys_update k d other).
  destruct (decide (k ∈ keys (dict_update d other)));
    destruct (decide (k ∈ keys d)); destruct (decide (k ∈ keys other));
    tauto.
Qed.

(** ** The texture mapping of [blockstate] *)

Lemma unpack_textures_flat textures :
  unpack_textures textures = dict_of (slot_entries textures).
Proof.
  unfold unpack_textures, dict_of, slot_entries.
  generalize (@nil (string * value)) as acc.
  induction textures as [|[key val] textures IH]; intros acc; [done|].
  simpl. rewrite dict_update_app, IH. f_equal.
  destruct key as [slot|names]; simpl; [done|].
  revert acc. induction names as [|x names IHn]; intros acc; [done|].
  simpl. by rewrite IHn.
Qed.

Lemma slot_entries_str textures kv :
  kv ∈ slot_entries textures → ∃ s, kv.2 = VStr s.
Proof.
  unfold slot_entries. rewrite list_elem_of_In, in_flat_map.
  intros ([key val] & _ & Hin). apply in_map_iff in Hin as (x & <- & _).
  by eexists.
Qed.

Lemma unpack_textures_str textures kv :
  kv ∈ unpack_textures textures → ∃ s, kv.2 = VStr s.
Proof.
  rewrite unpack_textures_flat. unfold dict_of, dict_update.
  assert (∀ kv, kv ∈ @nil (string * value) → ∃ s, kv.2 = VStr s) as Hacc
    by (by intros ? ?%elem_of_nil).
  revert Hacc. generalize (@nil (string * value)) as acc.
  pose proof (slot_entries_str textures) as He. revert He.
  generalize (slot_entries textures) as es.
  induction es as [|[k v] es IH]; intros He acc Hacc; simpl; [by apply Hacc|].
  apply IH.
  - intros ? ?. apply He. by right.
  - clear IH. destruct (He (k, v)) as [s Hs]; [left|]. simpl in Hs. subst v.
    induction acc as [|[k' v'] acc IHa]; simpl.
    + intros ? ->%list_elem_of_singleton. by eexists.
    + case_decide.
      * intros ? [->|?]%elem_of_cons; [by eexists|]. apply Hacc. by right.
      * intros ? [->|?]%elem_of_cons; [apply Hacc; left|].
        apply IHa; [|done]. intros ? ?. apply Hacc. by right.
Qed.

(** Pruning leaves the texture mapping as it is: its values are strings. *)
Lemma del_none_unpack_textures textures :
  del_none (unpack_textures textures) = unpack_textures textures.
Proof.
  apply del_none_loop_flat. apply forallb_forall. intros kv Hin.
  apply list_elem_of_In, unpack_textures_str in Hin as [s Hs].
  by rewrite Hs.
Qed.

(** ** The documents of [blockstate] and [model] *)

Lemma blockstate_doc_eq model textures variants :
  blockstate_doc model textures variants =
    [("__comment",
      VStr "Generated by generateResources.py function: blockstate");
     ("forge_marker", VInt 1);
     ("defaults",
      VDict (match model with Some m => [("model", VStr m)] | None => [] end
             ++ [("textures", VDict (unpack_textures textures))]));
     ("variants", VDict (del_none (merge_variants variants)))].
Proof.
  rewrite <- (del_none_unpack_textures textures). by destruct model.
Qed.

Lemma model_doc_eq parent textures :
  model_doc parent textures =
    pruned del_none_value
      [("__comment", VStr "Generated by generateResources.py function: model");
       ("parent", parent); ("textures", textures)].
Proof.
  unfold model_doc. rewrite dict_of_NoDup, del_none_pruned; [done| |];
    apply (bool_decide_unpack _); reflexivity.
Qed.
(** ** The variants of [blockstate] *)

Lemma merge_variants_update variants :
  merge_variants (Some variants) = dict_update default_variants variants.
Proof. by destruct variants. Qed.

Lemma variants_of_blockstate model textures variants :
  dict_get "variants" (blockstate_doc model textures variants)
  = Some (VDict (del_none (merge_variants variants))).
Proof. by rewrite blockstate_doc_eq. Qed.

(** What a key of the written variant table holds: the caller's value when
    the caller gives one that is not [None], nothing when the caller gives
    [None], and the default for ["normal"] when the caller has no such
    key. *)
Lemma written_variants_get k variants :
  NoDup (keys variants) →
  dict_get k (del_none (merge_variants (Some variants))) =
    match dict_get k variants with
    | Some v =>
        if is_None v then None
        else Some (match v with VDict sub => VDict (del_none sub) | _ => v end)
    | None => if decide (k = "normal") then Some (VList [VDict []]) else None
    end.
Proof.
  intros Hnd. rewrite merge_variants_update.
  rewrite del_none_pruned, dict_get_pruned, dict_get_update;
    try apply NoDup_dict_update; try done;
    try (apply (bool_decide_unpack _); reflexivity).
  destruct (dict_get k variants) as [v|]; [by destruct v|].
  simpl. by repeat case_decide.
Qed.

(** C1 (as amended). The variant table that is written is the default
    table updated with the caller's table and then pruned.  It holds every
    entry of the caller's table that is not [None] (a nested dict pruned),
    it holds no key the caller maps to [None], and the default entry
    ["normal": [{}]] stays exactly when the caller's table has no key
    ["normal"]; no other key appears. *)
Theorem blockstate_variants_merged model textures (variants : dict) :
  NoDup (keys variants) →
  ∃ out,
    dict_get "variants" (blockstate_doc model textures (Some variants))
    = Some (VDict out)
    ∧ out = del_none (dict_update default_variants variants)
    ∧ (∀ k v, dict_get k variants = Some v → v ≠ VNone →
         dict_get k out
         = Some (match v with VDict sub => VDict (del_none sub) | _ => v end))
    ∧ (∀ k, dict_get k variants = Some VNone → dict_get k out = None)
    ∧ (∀ k, dict_get k variants = None →
         dict_get k out
         = if decide (k = "normal") then Some (VList [VDict []]) else None).
Proof.
  intros Hnd. eexists. split; [apply variants_of_blockstate|].
  split; [by rewrite merge_variants_update|].
  split_and!; intros k.
  - intros v Hk Hv. rewrite written_variants_get, Hk by done. by destruct v.
  - intros Hk. by rewrite written_variants_get, Hk.
  - intros Hk. by rewrite written_variants_get, Hk.
Qed.

Lemma blockstate_variants_merged_witness :
  NoDup (keys sapling_variants)
  ∧ ∃ out,
      dict_get "variants"
        (blockstate_doc (Some "cross")
           [(KTuple ["cross"; "layer0"], "tfc:blocks/saplings/oak")]
           (Some sapling_variants)) = Some (VDict out)
      ∧ dict_get "normal" out = Some (VList [VDict []]).
Proof.
  assert (NoDup (keys sapling_variants)) as Hnd
    by (apply (bool_decide_unpack _); reflexivity).
  split; [exact Hnd|].
  destruct (blockstate_variants_merged (Some "cross")
              [(KTuple ["cross"; "layer0"], "tfc:blocks/saplings/oak")]
              sapling_variants Hnd) as (out & H1 & _ & _ & _ & H5).
  exists out. split; [exact H1|]. apply (H5 "normal"). reflexivity.
Defined.

(** C1 as it is stated fails: for the variant table of a sapling, which
    has no key ["normal"], the written table is not the caller's table; it
    has the default entry as well. *)
Lemma blockstate_variants_not_replaced :
  dict_get "variants"
    (blockstate_doc (Some "cross")
       [(KTuple ["cross"; "layer0"], "tfc:blocks/saplings/oak")]
       (Some sapling_variants))
  ≠ Some (VDict (del_none sapling_variants)).
Proof. vm_compute. discriminate. Qed.

(** C4. When the caller's variant table maps ["normal"] to [None], the
    written variant table has no key ["normal"]. *)
Theorem blockstate_normal_disabled model textures (variants : dict) :
  NoDup (keys variants) →
  dict_get "normal" variants = Some VNone →
  ∃ out,
    dict_get "variants" (blockstate_doc model textures (Some variants))
    = Some (VDict out)
    ∧ dict_get "normal" out = None
    ∧ "normal" ∉ keys out.
Proof.
  intros Hnd Hn. eexists. split; [apply variants_of_blockstate|].
  assert (dict_get "normal" (del_none (merge_variants (Some variants))) = None)
    as Hout by (by rewrite written_variants_get, Hn).
  split; [done | by apply dict_get_None].
Qed.

Lemma blockstate_normal_disabled_witness :
  NoDup (keys TRAPDOOR_VARIANTS)
  ∧ dict_get "normal" TRAPDOOR_VARIANTS = Some VNone
  ∧ ∃ out,
      dict_get "variants"
        (blockstate_doc None [(KStr "texture", "tfc:blocks/wood/trapdoor/oak")]
           (Some TRAPDOOR_VARIANTS)) = Some (VDict out)
      ∧ dict_get "normal" out = None
      ∧ "normal" ∉ keys out.
Proof.
  assert (NoDup (keys TRAPDOOR_VARIANTS)) as Hnd
    by (apply (bool_decide_unpack _); vm_compute; reflexivity).
  split; [exact Hnd|]. split; [reflexivity|].
  apply (blockstate_normal_disabled None
           [(KStr "texture", "tfc:blocks/wood/trapdoor/oak")]
           TRAPDOOR_VARIANTS Hnd).
  reflexivity.
Defined.
(** ** The texture mapping that is written *)

Lemma defaults_of_blockstate model textures variants :
  dict_get "defaults" (blockstate_doc model textures variants)
  = Some (VDict (match model with Some m => [("model", VStr m)] | None => [] end
                 ++ [("textures", VDict (unpack_textures textures))])).
Proof. by rewrite blockstate_doc_eq. Qed.

Lemma elem_of_flat_map {A B} (f : A → list B) (l : list A) (x : B) :
  x ∈ flat_map f l ↔ ∃ y, y ∈ l ∧ x ∈ f y.
Proof.
  rewrite list_elem_of_In, in_flat_map.
  split; intros (y & ? & ?); exists y; by rewrite ?list_elem_of_In in *.
Qed.

Lemma keys_slot_entries textures :
  keys (slot_entries textures) = flat_map (λ kv, slots kv.1) textures.
Proof.
  unfold slot_entries. induction textures as [|[key val] textures IH]; [done|].
  simpl. rewrite keys_app, IH. f_equal.
  unfold keys. rewrite <- list_fmap_compose. apply list_fmap_id.
Qed.

(** C5 (as amended). The texture mapping of the descriptor is built from
    one entry per slot name, stored in order, a later entry for the same
    slot replacing the value of an earlier one.  Its keys are slot names,
    pairwise distinct, namely those the keys of the caller's mapping name,
    and its values are strings.  A slot of a key with value [V] is mapped
    to [V] unless a later key of the caller's mapping names the same slot.
    When all the slot names are distinct, the mapping is exactly the list
    of the entries asked for: [N] entries for a group of [N] names, one for
    a plain key, in the caller's order. *)
Theorem blockstate_textures_unpacked model textures variants :
  ∃ T,
    dict_get "defaults" (blockstate_doc model textures variants)
    = Some (VDict (match model with Some m => [("model", VStr m)] | None => [] end
                   ++ [("textures", VDict T)]))
    ∧ T = unpack_textures textures
    ∧ NoDup (keys T)
    ∧ (∀ x, x ∈ keys T ↔ ∃ kv, kv ∈ textures ∧ x ∈ slots kv.1)
    ∧ (∀ pre key V post x,
         textures = pre ++ (key, V) :: post → x ∈ slots key →
         (∀ kv, kv ∈ post → x ∉ slots kv.1) →
         dict_get x T = Some (VStr V))
    ∧ (NoDup (flat_map (λ kv, slots kv.1) textures) →
         T = slot_entries textures).
Proof.
  eexists. split; [apply defaults_of_blockstate|]. split; [done|].
  rewrite unpack_textures_flat. split_and!.
  - apply NoDup_dict_update. constructor.
  - intros x. unfold dict_of. rewrite elem_of_keys_update, keys_slot_entries.
    rewrite elem_of_flat_map. split.
    + by intros [[]%elem_of_nil|?].
    + by right.
  - intros pre key V post x -> Hx Hpost. unfold dict_of.
    rewrite dict_get_update_last. unfold slot_entries.
    rewrite flat_map_app. simpl. rewrite !reverse_app, <- app_assoc.
    rewrite !dict_get_app.
    assert (dict_get x (reverse (flat_map
              (λ kv, map (λ x0, (x0, VStr kv.2)) (slots kv.1)) post)) = None)
      as ->.
    { apply dict_get_None. rewrite keys_reverse, elem_of_reverse.
      fold (slot_entries post). rewrite keys_slot_entries.
      rewrite elem_of_flat_map. intros (kv & Hkv & Hin).
      by apply (Hpost kv). }
    rewrite (dict_get_const x (VStr V)); [done| |].
    + intros kv. rewrite elem_of_reverse, list_elem_of_In, in_map_iff.
      by intros (? & <- & _).
    + rewrite keys_reverse, elem_of_reverse. unfold keys.
      rewrite <- list_fmap_compose. by rewrite list_fmap_id.
  - intros Hnd. apply dict_of_NoDup. by rewrite keys_slot_entries.
Qed.

Lemma blockstate_textures_unpacked_witness :
  ∃ T,
    dict_get "defaults"
      (blockstate_doc (Some "tfc:ore")
         [(KTuple ["all"; "particle"], "tfc:blocks/stonetypes/raw/granite");
          (KStr "overlay", "tfc:blocks/ores/galena")] None)
    = Some (VDict ([("model", VStr "tfc:ore")] ++ [("textures", VDict T)]))
    ∧ T = [("all", VStr "tfc:blocks/stonetypes/raw/granite");
           ("particle", VStr "tfc:blocks/stonetypes/raw/granite");
           ("overlay", VStr "tfc:blocks/ores/galena")].
Proof.
  destruct (blockstate_textures_unpacked (Some "tfc:ore")
              [(KTuple ["all"; "particle"], "tfc:blocks/stonetypes/raw/granite");
               (KStr "overlay", "tfc:blocks/ores/galena")] None)
    as (T & H1 & _ & _ & _ & _ & H6).
  exists T. split; [exact H1|]. apply H6.
  apply (bool_decide_unpack _). reflexivity.
Defined.

(** C5 as it is stated fails: a plain key after a group that names the same
    slot replaces the value of the group for that slot. *)
Lemma blockstate_textures_overlap :
  dict_get "defaults"
    (blockstate_doc None
       [(KTuple ["all"; "particle"], "tfc:blocks/stonetypes/dirt/granite");
        (KStr "particle", "tfc:blocks/grass_top")] None)
  = Some (VDict [("textures",
                  VDict [("all", VStr "tfc:blocks/stonetypes/dirt/granite");
                         ("particle", VStr "tfc:blocks/grass_top")])])
  ∧ dict_get "particle"
      (unpack_textures
         [(KTuple ["all"; "particle"], "tfc:blocks/stonetypes/dirt/granite");
          (KStr "particle", "tfc:blocks/grass_top")])
    ≠ Some (VStr "tfc:blocks/stonetypes/dirt/granite").
Proof. split; [reflexivity | vm_compute; discriminate]. Qed.
(** ** Item descriptors *)

Lemma str_of_nat_inj : Inj (=) (=) str_of_nat.
Proof.
  intros a b Hab. unfold str_of_nat in Hab.
  assert (∀ n, NilZero.uint_of_string (NilZero.string_of_uint (Nat.to_uint n))
               = Some (Nat.to_uint n)) as Hus.
  { intros n. apply NilZero.usu. intros Hn.
    assert (n = 0) as -> by (by rewrite <- (Unsigned.of_to n), Hn).
    discriminate Hn. }
  pose proof (Hus a) as Ha. rewrite Hab, Hus in Ha.
  injection Ha as Ha. rewrite <- (Unsigned.of_to a), <- (Unsigned.of_to b).
  by rewrite Ha.
Qed.

Lemma keys_layer_entries layers :
  keys (layer_entries layers)
  = (λ i, "layer" +:+ str_of_nat i) <$> seq 0 (length layers).
Proof.
  unfold keys, layer_entries. rewrite fmap_imap.
  apply (imap_seq_0 layers (λ i, "layer" +:+ str_of_nat i)).
Qed.

Lemma NoDup_layer_entries layers : NoDup (keys (layer_entries layers)).
Proof.
  rewrite keys_layer_entries. apply NoDup_fmap_2; [|apply NoDup_seq].
  intros a b Hab. by apply String.app_inj, str_of_nat_inj in Hab.
Qed.

Lemma layer_textures_eq layers : layer_textures layers = layer_entries layers.
Proof. apply dict_of_NoDup, NoDup_layer_entries. Qed.

Lemma del_none_layer_entries layers :
  del_none (layer_entries layers) = layer_entries layers.
Proof.
  apply del_none_loop_flat, forallb_forall. intros kv Hin.
  apply list_elem_of_In, list_elem_of_lookup in Hin as [i Hi].
  apply list_lookup_imap_Some in Hi as (v & _ & ->). done.
Qed.

(** C6. [item] writes the model descriptor at the path made of ["models"],
    the segment ["item"] and the naming path.  Without layers the
    descriptor has no texture field; with layers its texture mapping has
    one entry per layer, keyed ["layer0"], ["layer1"], ... in the order of
    the layers, the [i]-th key holding the [i]-th layer. *)
Theorem item_layers filename_parts layers parent :
  item filename_parts layers parent
  = model ("item" :: filename_parts) (VStr parent)
      (match layers with [] => VNone | _ => VDict (layer_entries layers) end)
  ∧ item filename_parts layers parent
    = [EMakedirs
         (os_path_dirname
            (os_path_join "models" ("item" :: filename_parts) +:+ ".json"));
       EWriteJson (os_path_join "models" ("item" :: filename_parts) +:+ ".json")
         (VDict
            ([("__comment",
               VStr "Generated by generateResources.py function: model");
              ("parent", VStr parent)]
             ++ match layers with
                | [] => []
                | _ => [("textures", VDict (layer_entries layers))]
                end))]
  ∧ length (layer_entries layers) = length layers
  ∧ NoDup (keys (layer_entries layers))
  ∧ (∀ i v, layers !! i = Some v →
       layer_entries layers !! i = Some ("layer" +:+ str_of_nat i, VStr v)
       ∧ dict_get ("layer" +:+ str_of_nat i) (layer_entries layers)
         = Some (VStr v)).
Proof.
  split_and!.
  - unfold item. rewrite layer_textures_eq. by destruct layers.
  - unfold item, model. rewrite model_doc_eq, layer_textures_eq.
    destruct layers as [|v layers]; [done|].
    rewrite decide_False by done. cbn [pruned is_None is_dict].
    by rewrite del_none_value_dict, del_none_layer_entries.
  - apply length_imap.
  - apply NoDup_layer_entries.
  - intros i v Hi.
    assert (layer_entries layers !! i = Some ("layer" +:+ str_of_nat i, VStr v))
      as Hl by (unfold layer_entries; by rewrite list_lookup_imap, Hi).
    split; [done|]. apply dict_get_elem; [apply NoDup_layer_entries|].
    by eapply list_elem_of_lookup_2.
Qed.

Lemma item_layers_witness :
  dict_get "layer1"
    (layer_entries ["tfc:items/ceramics/fired/vessel";
                    "tfc:items/ceramics/fired/vessel_overlay"])
  = Some (VStr "tfc:items/ceramics/fired/vessel_overlay").
Proof.
  destruct (item_layers ["ceramics"; "fired"; "vessel_glazed"]
              ["tfc:items/ceramics/fired/vessel";
               "tfc:items/ceramics/fired/vessel_overlay"] generated)
    as (_ & _ & _ & _ & H).
  apply (H 1 "tfc:items/ceramics/fired/vessel_overlay"). reflexivity.
Defined.


(** ** The provenance marker *)

Lemma blockstate_doc_marker model textures variants :
  dict_get "__comment" (blockstate_doc model textures variants)
  = Some (VStr "Generated by generateResources.py function: blockstate").
Proof. by rewrite blockstate_doc_eq. Qed.

Lemma model_doc_marker parent textures :
  dict_get "__comment" (model_doc parent textures)
  = Some (VStr "Generated by generateResources.py function: model").
Proof. by rewrite model_doc_eq. Qed.
(** ** Strings and paths *)

#[local] Arguments String.append !_ _ / : simpl nomatch.

Lemma str_length_app (a b : string) :
  String.length (a +:+ b) = String.length a + String.length b.
Proof. induction a as [|c a IH]; simpl; [done | by rewrite IH]. Qed.

Lemma str_app_assoc (a b c : string) : (a +:+ b) +:+ c = a +:+ b +:+ c.
Proof. induction a as [|x a IH]; simpl; [done | by rewrite IH]. Qed.

Lemma str_prefix_app (p r : string) : String.prefix p (p +:+ r) = true.
Proof.
  induction p as [|c p IH]; simpl; [by destruct r|].
  destruct (ascii_dec c c); [done | congruence].
Qed.

Lemma str_drop_app (p r : string) : str_drop (String.length p) (p +:+ r) = r.
Proof. induction p as [|c p IH]; simpl; [by destruct r | done]. Qed.

Lemma str_prefix_inv (p s : string) :
  String.prefix p s = true → s = p +:+ str_drop (String.length p) s.
Proof.
  revert s. induction p as [|c p IH]; intros s; [done|].
  destruct s as [|c' s]; [done|]. simpl.
  destruct (ascii_dec c c') as [->|]; [|done].
  intros Hp. by rewrite <- IH.
Qed.

Lemma str_app_inv_tail (a b s : string) : a +:+ s = b +:+ s → a = b.
Proof.
  revert b. induction a as [|c a IH]; intros [|c' b]; simpl; try done.
  - intros H. apply (f_equal String.length) in H. simpl in H.
    rewrite str_length_app in H. lia.
  - intros H. apply (f_equal String.length) in H. simpl in H.
    rewrite str_length_app in H. lia.
  - intros [= -> H]. by rewrite (IH b).
Qed.

(** A relative path is resolved by putting a prefix in front of it, which
    depends on the working directory only. *)
Lemma resolve_in_rel dir p : is_abs p = false → resolve_in dir p = dir_prefix dir +:+ p.
Proof.
  intros Hp. unfold resolve_in, os_path_join, dir_prefix. simpl. unfold join2.
  rewrite Hp. destruct (String.eqb dir "" || endswith_sep dir); [done|].
  by rewrite str_app_assoc.
Qed.

(** ** Running effects *)

Lemma exec_app w es1 es2 : exec w (es1 ++ es2) = exec (exec w es1) es2.
Proof. apply foldl_app. Qed.

(** The world after a list of effects of the emission primitives. *)
Lemma exec_emission es w :
  Forall (λ e, is_emission e = true) es →
  exec w es
  = World (cwd w) (list_to_set (made (cwd w) es) ∪ dirs w)
      (list_to_map (reverse (writes (cwd w) es)) ∪ files w) (clock w).
Proof.
  intros Hes. revert w. induction Hes as [|e es He Hes IH]; intros w.
  - simpl. rewrite (left_id_L ∅ (∪)), (left_id_L ∅ (∪)). by destruct w.
  - change (exec w (e :: es)) with (exec (step w e) es). rewrite IH.
    destruct e as [| | | |p|p doc]; try done; simpl; f_equal.
    + rewrite list_to_set_app_L. set_solver.
    + rewrite reverse_cons, list_to_map_app. simpl.
      rewrite <- (assoc_L (∪)). f_equal.
      by rewrite insert_empty, <- insert_union_singleton_l.
Qed.
(** ** What the driver emits *)

Lemma blockstate_emitted filename_parts model textures variants :
  Forall emitted (blockstate filename_parts model textures variants).
Proof.
  unfold blockstate. repeat constructor; simpl.
  eexists _, "blockstate". split; [done|]. split; [|by left].
  apply blockstate_doc_marker.
Qed.

Lemma cube_all_emitted filename_parts texture variants model :
  Forall emitted (cube_all filename_parts texture variants model).
Proof. apply blockstate_emitted. Qed.

Lemma model_emitted filename_parts parent textures :
  Forall emitted (model filename_parts parent textures).
Proof.
  unfold model. repeat constructor; simpl.
  eexists _, "model". split; [done|]. split; [|by right].
  apply model_doc_marker.
Qed.

Lemma item_emitted filename_parts layers parent :
  Forall emitted (item filename_parts layers parent).
Proof. apply model_emitted. Qed.

Lemma Forall_for_ {A} (P : event → Prop) (xs : list A) body :
  (∀ x, Forall P (body x)) → Forall P (for_ xs body).
Proof.
  intros Hb. unfold for_. induction xs as [|x xs IH]; simpl; [constructor|].
  apply Forall_app_2; auto.
Qed.

Ltac emitted_step :=
  lazymatch goal with
  | |- Forall _ (_ ++ _) => apply Forall_app_2
  | |- Forall _ (for_ _ _) => apply Forall_for_; intros ?
  | |- Forall _ (blockstate _ _ _ _) => apply blockstate_emitted
  | |- Forall _ (cube_all _ _ _ _) => apply cube_all_emitted
  | |- Forall _ (item _ _ _) => apply item_emitted
  | |- Forall _ [] => apply Forall_nil_2
  | |- Forall _ (if ?b then _ else _) => destruct b
  | |- Forall _ (let _ := _ in _) => cbv zeta
  end.

Lemma steel_items_emitted steel kind : Forall emitted (steel_items steel kind).
Proof. unfold steel_items. repeat emitted_step. Qed.

Lemma blocks_emitted T :
  Forall emitted (fluid_blocks T ++ rock_blocks T ++ wood_blocks T).
Proof. unfold fluid_blocks, rock_blocks, wood_blocks. repeat emitted_step. Qed.

Lemma items_emitted T :
  Forall emitted (items_before_steel T)
  ∧ Forall emitted (items_between_steel T)
  ∧ Forall emitted (items_after_steel T).
Proof.
  unfold items_before_steel, items_between_steel, items_after_steel.
  split_and!; repeat emitted_step.
Qed.

Lemma driver_emitted T steel : Forall emitted (driver T steel).
Proof.
  unfold driver. destruct (items_emitted T) as (H1 & H2 & H3).
  pose proof (blocks_emitted T) as H0.
  apply Forall_app in H0 as [Hf H0]. apply Forall_app in H0 as [Hr Hw].
  pose proof (steel_items_emitted steel).
  repeat (apply Forall_app_2; [done|]). done.
Qed.

Lemma driver_emission T steel :
  Forall (λ e, is_emission e = true) (driver T steel).
Proof. eapply Forall_impl; [apply driver_emitted|]. by intros e [? _]. Qed.

Lemma archive_events w :
  archive (start w)
  = (if bool_decide ("assets_backups" ∈ dirs w) then []
     else [EMkdir "assets_backups";
           EWriteText "assets_backups/.gitignore" gitignore_text])
    ++ zipfolder
         (exec (start w)
            (if bool_decide ("assets_backups" ∈ dirs w) then []
             else [EMkdir "assets_backups";
                   EWriteText "assets_backups/.gitignore" gitignore_text]))
         ("assets_backups/" +:+ str_of_Z (int_of (clock w)) +:+ ".zip") assets
    ++ [EChdir "src/main/resources/assets/tfc/"].
Proof.
  unfold archive, os_path_isdir. change (resolve (start w) "assets_backups")
    with "assets_backups". change (dirs (start w)) with (dirs w).
  by destruct (bool_decide ("assets_backups" ∈ dirs w)).
Qed.

(** C7. Every descriptor that is written carries the marker: the document
    of [blockstate] and the document of [model] have the key ["__comment"]
    after pruning, whatever the arguments are, and so has every descriptor
    a run writes. *)
Theorem provenance_marker :
  (∀ model textures variants,
     dict_get "__comment" (blockstate_doc model textures variants)
     = Some (VStr "Generated by generateResources.py function: blockstate"))
  ∧ (∀ parent textures,
       dict_get "__comment" (model_doc parent textures)
       = Some (VStr "Generated by generateResources.py function: model"))
  ∧ (∀ T steel w, Forall has_marker (generate T steel w)).
Proof.
  split; [apply blockstate_doc_marker|]. split; [apply model_doc_marker|].
  intros T steel w. unfold generate. apply Forall_app_2.
  - rewrite archive_events. unfold zipfolder.
    destruct (bool_decide ("assets_backups" ∈ dirs w)); repeat constructor.
  - eapply Forall_impl; [apply driver_emitted|]. by intros e [_ ?].
Qed.
(** ** The archive *)

Lemma map_fmap {A B} (f : A → B) (l : list A) : map f l = f <$> l.
Proof. done. Qed.

(** The archive holds the files below the target directory, each under its
    path relative to that directory. *)
Lemma zipfolder_entries w zip_name target_dir :
  cwd w = "" →
  ∃ entries,
    zipfolder w zip_name target_dir = [EZip zip_name entries]
    ∧ ∀ rel, entries !! rel = files w !! (target_dir +:+ "/" +:+ rel).
Proof.
  intros Hcwd. eexists. split; [reflexivity|]. intros rel.
  unfold os_walk_files.
  assert (resolve w target_dir = target_dir) as ->.
  { unfold resolve, resolve_in, os_path_join. rewrite Hcwd. simpl.
    unfold join2. by destruct (is_abs target_dir). }
  set (pfx := target_dir +:+ "/").
  set (F := filter (λ kv : string * fdata, String.prefix pfx kv.1 = true)
              (files w)).
  assert (∀ k v, (k, v) ∈ map_to_list F →
            k = pfx +:+ str_drop (String.length pfx) k ∧ files w !! k = Some v)
    as HF.
  { intros k v [Hk Hp]%elem_of_map_to_list%map_lookup_filter_Some.
    split; [by apply str_prefix_inv | done]. }
  rewrite !map_fmap, <- list_fmap_compose.
  assert (String.length target_dir + 1 = String.length pfx) as Hlen.
  { unfold pfx. rewrite str_length_app. done. }
  set (L := (λ kv : string * fdata, (str_drop (String.length pfx) kv.1, kv.2))
              <$> map_to_list F).
  match goal with |- list_to_map ?l !! _ = _ => assert (l = L) as -> end.
  { apply list_fmap_ext. intros i [k v] Hi.
    apply list_elem_of_lookup_2, HF in Hi as [Hk _].
    simpl. rewrite Hlen. f_equal.
    assert (str_drop (String.length target_dir) k
            = "/" +:+ str_drop (String.length pfx) k) as ->.
    { rewrite Hk at 1. unfold pfx at 1. rewrite str_app_assoc.
      apply str_drop_app. }
    rewrite <- str_app_assoc. fold pfx. by rewrite <- Hk. }
  assert (NoDup L.*1) as HL.
  { assert (L.*1 = str_drop (String.length pfx) <$> (map_to_list F).*1) as ->
      by (unfold L; by rewrite <- !list_fmap_compose).
    apply NoDup_fmap_2_strong; [|apply NoDup_fst_map_to_list].
    intros k1 k2 [[? v1] [-> H1]]%list_elem_of_fmap
      [[? v2] [-> H2]]%list_elem_of_fmap.
    apply HF in H1 as [H1 _]. apply HF in H2 as [H2 _]. simpl in *.
    intros Heq. rewrite H1, H2. by rewrite Heq. }
  apply option_eq. intros v. rewrite <- (elem_of_list_to_map L) by done.
  unfold L. rewrite list_elem_of_fmap. split.
  - intros ([k v'] & [= -> ->] & Hin). apply HF in Hin as [Hk Hv].
    rewrite <- str_app_assoc. fold pfx. by rewrite <- Hk.
  - intros Hv. exists (pfx +:+ rel, v). simpl. rewrite str_drop_app.
    split; [done|]. apply elem_of_map_to_list, map_lookup_filter_Some. simpl.
    unfold pfx at 1. rewrite str_app_assoc. split; [done|].
    apply str_prefix_app.
Qed.

Lemma prefix_split {A} (a d pre suf : list A) (e : A) :
  a ++ d = pre ++ e :: suf → e ∉ a → ∃ pre', pre = a ++ pre' ∧ d = pre' ++ e :: suf.
Proof.
  intros Heq He. apply app_eq_inv in Heq as [(k & -> & Hk)|(k & -> & Hk)].
  - destruct k as [|x k].
    + exists []. by rewrite !app_nil_r.
    + injection Hk as <- _. exfalso. apply He, elem_of_app. right. left.
  - by exists k.
Qed.

Ltac elem_inv H :=
  repeat (apply elem_of_cons in H as [H|H]; [try discriminate H|]);
  try (by apply elem_of_nil in H).

(** C8. A run starts with the archival step and only then emits.  The
    effects of a run are: the archive root and its ignore-all file, made
    exactly when the archive root is not a directory yet; one archive,
    named by the seconds since the epoch, that holds every file below the
    assets directory under its relative path; the change of directory; and
    then [driver], which only makes directories and writes descriptors.
    So whenever a descriptor is written, the archive has been written
    before, and the archive root has been made before exactly when it was
    not there. *)
Theorem archive_before_emission T steel w :
  ∃ entries,
    generate T steel w
    = (if bool_decide ("assets_backups" ∈ dirs w) then []
       else [EMkdir "assets_backups";
             EWriteText "assets_backups/.gitignore" gitignore_text])
      ++ [EZip ("assets_backups/" +:+ str_of_Z (int_of (clock w)) +:+ ".zip")
            entries;
          EChdir "src/main/resources/assets/tfc/"]
      ++ driver T steel
    ∧ (∀ rel, entries !! rel = files w !! (assets +:+ "/" +:+ rel))
    ∧ Forall (λ e, is_emission e = true) (driver T steel)
    ∧ (∀ pre p doc suf,
         generate T steel w = pre ++ EWriteJson p doc :: suf →
         EZip ("assets_backups/" +:+ str_of_Z (int_of (clock w)) +:+ ".zip")
           entries ∈ pre
         ∧ (EMkdir "assets_backups" ∈ pre ↔ "assets_backups" ∉ dirs w)
         ∧ (EWriteText "assets_backups/.gitignore" gitignore_text ∈ pre
            ↔ "assets_backups" ∉ dirs w)
         ∧ Forall (λ e, is_emission e = true) suf).
Proof.
  set (init := if bool_decide ("assets_backups" ∈ dirs w) then []
               else [EMkdir "assets_backups";
                     EWriteText "assets_backups/.gitignore" gitignore_text]).
  destruct (zipfolder_entries (exec (start w) init)
              ("assets_backups/" +:+ str_of_Z (int_of (clock w)) +:+ ".zip")
              assets) as (entries & Hzip & Hentries).
  { unfold init. by destruct (bool_decide _). }
  exists entries.
  assert (generate T steel w
          = (init ++ [EZip ("assets_backups/" +:+ str_of_Z (int_of (clock w))
                            +:+ ".zip") entries;
                      EChdir "src/main/resources/assets/tfc/"])
            ++ driver T steel) as Hgen.
  { unfold generate. rewrite archive_events. fold init. rewrite Hzip.
    by rewrite <- !app_assoc. }
  assert (∀ rel, entries !! rel = files w !! (assets +:+ "/" +:+ rel)) as Hall.
  { intros rel. rewrite Hentries. unfold init.
    destruct (bool_decide _); [done|]. simpl. by rewrite lookup_insert_ne. }
  pose proof (driver_emission T steel) as Hdrv.
  split; [by rewrite Hgen, <- app_assoc|]. split; [done|]. split; [done|].
  intros pre p doc suf Hpre. rewrite Hgen in Hpre.
  apply prefix_split in Hpre as (pre' & -> & Hd); last first.
  { intros [Hin|Hin]%elem_of_app; [|elem_inv Hin].
    unfold init in Hin. destruct (bool_decide _); elem_inv Hin. }
  rewrite Hd in Hdrv. apply Forall_app in Hdrv as [Hpre' Hsuf].
  apply Forall_cons in Hsuf as [_ Hsuf].
  assert (∀ e, is_emission e = false → e ∉ pre') as Hno.
  { intros e He Hin. rewrite Forall_forall in Hpre'.
    apply Hpre' in Hin. congruence. }
  split_and!; [|split|split|done].
  - apply elem_of_app. left. apply elem_of_app. right. left.
  - intros [[Hin|Hin]%elem_of_app|Hin]%elem_of_app.
    + unfold init in Hin. case_bool_decide; [by apply elem_of_nil in Hin|done].
    + elem_inv Hin.
    + by apply Hno in Hin.
  - intros Hdir. apply elem_of_app. left. apply elem_of_app. left.
    unfold init. rewrite bool_decide_eq_false_2 by done. left.
  - intros [[Hin|Hin]%elem_of_app|Hin]%elem_of_app.
    + unfold init in Hin. case_bool_decide; [by apply elem_of_nil in Hin|done].
    + elem_inv Hin.
    + by apply Hno in Hin.
  - intros Hdir. apply elem_of_app. left. apply elem_of_app. left.
    unfold init. rewrite bool_decide_eq_false_2 by done. right. left.
Qed.

Lemma archive_before_emission_witness :
  ∃ entries,
    EZip "assets_backups/0.zip" entries
      ∈ take 5 (generate scenario_tables [] empty_world)
    ∧ EMkdir "assets_backups" ∈ take 5 (generate scenario_tables [] empty_world).
Proof.
  destruct (archive_before_emission scenario_tables [] empty_world)
    as (entries & _ & _ & _ & H).
  exists entries.
  destruct (H (take 5 (generate scenario_tables [] empty_world))
              "blockstates/raw/granite.json"
              (VDict (blockstate_doc (Some "cube_all")
                        [(KStr "all", "tfc:blocks/stonetypes/raw/granite")]
                        None))
              (drop 6 (generate scenario_tables [] empty_world)))
    as (Hzip & Hmk & _).
  - vm_compute. reflexivity.
  - split; [exact Hzip|]. apply Hmk. apply not_elem_of_empty.
Defined.

(** ** The output tree *)

Section output_tree.
Implicit Types (m : gmap string fdata) (k : string).

#[local] Abbreviation below :=
  (λ kv : string * fdata, String.prefix (assets +:+ "/") kv.1 = true).

Lemma tree_lookup m k :
  filter below m !! k
  = if decide (String.prefix (assets +:+ "/") k = true) then m !! k else None.
Proof.
  apply option_eq. intros v. rewrite map_lookup_filter_Some.
  cbn [fst]. case_decide; naive_solver.
Qed.

Lemma tree_union m1 m2 :
  filter below (m1 ∪ m2) = filter below m1 ∪ filter below m2.
Proof.
  apply map_eq. intros k. rewrite lookup_union, !tree_lookup, lookup_union.
  by case_decide.
Qed.

Lemma tree_insert_outside m k v :
  String.prefix (assets +:+ "/") k = false →
  filter below (<[k:=v]> m) = filter below m.
Proof.
  intros Hk. apply map_filter_insert_not. intros y Hy.
  cbn [fst] in Hy. congruence.
Qed.
End output_tree.

(** The archival step leaves the output tree as it is and ends in the
    assets directory. *)
Lemma exec_archive w :
  cwd (exec (start w) (archive (start w))) = assets_dir
  ∧ output_tree (exec (start w) (archive (start w))) = output_tree w.
Proof.
  rewrite archive_events. unfold zipfolder, output_tree.
  destruct (bool_decide ("assets_backups" ∈ dirs w)); simpl; (split; [done|]).
  - by rewrite tree_insert_outside.
  - by rewrite !tree_insert_outside.
Qed.

(** The output tree after a run: what the run writes, over what was
    there. *)
Lemma run_tree T steel w :
  output_tree (run T steel w) = tree_written T steel ∪ output_tree w.
Proof.
  unfold run, generate. rewrite exec_app.
  destruct (exec_archive w) as [Hcwd Htree].
  rewrite exec_emission by apply driver_emission.
  unfold output_tree at 1. simpl. rewrite tree_union, Hcwd.
  fold (output_tree (exec (start w) (archive (start w)))). by rewrite Htree.
Qed.

(** ** The order of iteration over [STEEL] *)

Lemma writes_app dir es1 es2 :
  writes dir (es1 ++ es2) = writes dir es1 ++ writes dir es2.
Proof. apply flat_map_app. Qed.

Lemma writes_for_ {A} dir (xs : list A) body :
  writes dir (for_ xs body) = flat_map (λ x, writes dir (body x)) xs.
Proof.
  unfold for_. induction xs as [|x xs IH]; [done|].
  simpl. by rewrite writes_app, IH.
Qed.

Lemma writes_item dir filename_parts layers parent :
  writes dir (item filename_parts layers parent)
  = [(resolve_in dir
        (os_path_join "models" ("item" :: filename_parts) +:+ ".json"),
      FJson (VDict (model_doc (VStr parent)
                      (if decide (length layers = 0) then VNone
                       else VDict (layer_textures layers)))))].
Proof. done. Qed.

(** The paths of the two descriptors of a steel, for ingots and molds. *)
Lemma steel_items_keys dir steel kind :
  kind = "metal" ∨ kind = "mold" →
  (writes dir (steel_items steel kind)).*1
  = flat_map
      (λ metal,
         [dir_prefix dir +:+ "models/item/" +:+ kind +:+ "/ingot/high_carbon_"
            +:+ metal +:+ ".json";
          dir_prefix dir +:+ "models/item/" +:+ kind +:+ "/ingot/weak_"
            +:+ metal +:+ ".json"]) steel.
Proof.
  intros Hkind. unfold steel_items. rewrite writes_for_.
  induction steel as [|metal steel IH]; [done|].
  cbn [flat_map]. rewrite fmap_app, IH. f_equal.
  rewrite writes_for_. cbn [flat_map]. rewrite !writes_item. cbn [fmap list_fmap app fst].
  destruct Hkind as [-> | ->]; by rewrite !resolve_in_rel.
Qed.

Lemma NoDup_steel_keys (K1 K2 : string → string) steel :
  Inj (=) (=) K1 → Inj (=) (=) K2 → (∀ x y, K1 x ≠ K2 y) →
  NoDup steel → NoDup (flat_map (λ metal, [K1 metal; K2 metal]) steel).
Proof.
  intros H1 H2 H12. induction 1 as [|x steel Hx Hnd IH]; [constructor|].
  cbn [flat_map app].
  assert (∀ k, k ∈ flat_map (λ metal, [K1 metal; K2 metal]) steel →
               ∃ y, y ∈ steel ∧ (k = K1 y ∨ k = K2 y)) as Hin.
  { intros k (y & Hy & Hk)%elem_of_flat_map. exists y. split; [done|].
    apply elem_of_cons in Hk as [->|Hk]; [by left|].
    apply list_elem_of_singleton in Hk as ->. by right. }
  constructor; [|constructor; [|done]].
  - intros [Heq|(y & Hy & [Hk|Hk])%Hin]%elem_of_cons.
    + by apply H12 in Heq.
    + apply H1 in Hk as ->. done.
    + by apply H12 in Hk.
  - intros (y & Hy & [Hk|Hk])%Hin.
    + symmetry in Hk. by apply H12 in Hk.
    + apply H2 in Hk as ->. done.
Qed.

Lemma NoDup_steel_items dir steel kind :
  kind = "metal" ∨ kind = "mold" → NoDup steel →
  NoDup (writes dir (steel_items steel kind)).*1.
Proof.
  intros Hkind Hnd. rewrite steel_items_keys by done.
  apply NoDup_steel_keys; [| | |done].
  - intros x y Heq. apply String.app_inj in Heq.
    destruct Hkind as [-> | ->]; simpl in Heq; simplify_eq;
      by eapply str_app_inv_tail.
  - intros x y Heq. apply String.app_inj in Heq.
    destruct Hkind as [-> | ->]; simpl in Heq; simplify_eq;
      by eapply str_app_inv_tail.
  - intros x y Heq. apply String.app_inj in Heq.
    destruct Hkind as [-> | ->]; simpl in Heq; simplify_eq.
Qed.

(** What the loops over [STEEL] write does not depend on the order. *)
Lemma steel_items_order dir o1 o2 kind :
  kind = "metal" ∨ kind = "mold" → NoDup o1 → o1 ≡ₚ o2 →
  (list_to_map (reverse (writes dir (steel_items o1 kind))) : gmap string fdata)
  = list_to_map (reverse (writes dir (steel_items o2 kind))).
Proof.
  intros Hkind Hnd Hperm. apply list_to_map_proper.
  - rewrite fmap_reverse, reverse_Permutation. by apply NoDup_steel_items.
  - rewrite !reverse_Permutation. unfold steel_items. rewrite !writes_for_.
    by apply Permutation_flat_map.
Qed.

Lemma tree_written_order T o1 o2 :
  NoDup o1 → o1 ≡ₚ o2 → tree_written T o1 = tree_written T o2.
Proof.
  intros Hnd Hperm. unfold tree_written, driver. f_equal.
  rewrite !writes_app, !reverse_app, !list_to_map_app.
  rewrite (steel_items_order _ o1 o2 "metal"), (steel_items_order _ o1 o2 "mold");
    auto.
Qed.

(** C9. Two runs over the same tables produce the same output tree: from
    worlds whose output trees are equal, whatever else is different in them
    (the clock, the archives, the order in which each run iterates over the
    set [STEEL]), and a second run after a first one, at any later time,
    leaves the output tree of the first run as it is. *)
Theorem generate_deterministic T o1 o2 w1 w2 :
  o1 ≡ₚ elements (STEEL T) → o2 ≡ₚ elements (STEEL T) →
  (output_tree w1 = output_tree w2 →
   output_tree (run T o1 w1) = output_tree (run T o2 w2))
  ∧ (∀ t, output_tree (run T o2 (at_time t (run T o1 w1)))
          = output_tree (run T o1 w1)).
Proof.
  intros H1 H2.
  assert (NoDup o1) as Hnd by (rewrite H1; apply NoDup_elements).
  assert (o1 ≡ₚ o2) as Hperm by (by rewrite H1, H2).
  split.
  - intros Hw. rewrite !run_tree, Hw. f_equal. by apply tree_written_order.
  - intros t. rewrite run_tree. change (output_tree (at_time t ?w))
      with (output_tree w). rewrite run_tree.
    rewrite <- (tree_written_order T o1 o2) by done.
    by rewrite (assoc_L (∪)), (idemp_L (∪)).
Qed.

Lemma generate_deterministic_witness :
  elements (STEEL source_tables) ≡ₚ elements (STEEL source_tables)
  ∧ reverse (elements (STEEL source_tables)) ≡ₚ elements (STEEL source_tables)
  ∧ output_tree
      (run source_tables (elements (STEEL source_tables)) empty_world)
    = output_tree
        (run source_tables (reverse (elements (STEEL source_tables)))
           (at_time 1700000000 empty_world)).
Proof.
  split; [reflexivity|]. split; [apply reverse_Permutation|].
  pose proof (generate_deterministic source_tables
                (elements (STEEL source_tables))
                (reverse (elements (STEEL source_tables)))
                empty_world (at_time 1700000000 empty_world)
                (reflexivity _) (reverse_Permutation _)) as H.
  exact (proj1 H eq_refl).
Defined.


(** ** Null-pruning on the store *)

Lemma keeps_lists_refl σ : Store.keeps_lists σ σ.
Proof. by split. Qed.

Lemma keeps_lists_trans σ1 σ2 σ3 :
  Store.keeps_lists σ1 σ2 → Store.keeps_lists σ2 σ3 → Store.keeps_lists σ1 σ3.
Proof. intros [H1 H2] [H3 H4]. split; [congruence | auto]. Qed.

Lemma store_del_keeps_lists d k σ σ' :
  Store.store_del d k σ = Some σ' → Store.keeps_lists σ σ'.
Proof.
  unfold Store.store_del. destruct (σ !! d) as [[items|]|] eqn:Hd; try done.
  case_bool_decide; [|done]. intros [= <-]. split.
  - by apply dom_insert_lookup_L.
  - intros l elems Hl. rewrite lookup_insert_ne; [done|]. congruence.
Qed.

Lemma foldl_step_None rec d items :
  foldl (Store.del_none_step rec d) None items = None.
Proof. by induction items. Qed.

(** Whatever the store is: the call returns its argument, makes no new
    object and does not touch a list. *)
Lemma del_none_safe fuel d σ σ' r :
  Store.del_none fuel d σ = Some (σ', r) →
  r = Store.RRef d ∧ Store.keeps_lists σ σ'.
Proof.
  revert d σ σ' r. induction fuel as [|fuel IH]; intros d σ σ' r; [done|].
  simpl. destruct (σ !! d) as [[items|]|]; try done.
  destruct (foldl _ _ items) as [σ1|] eqn:Hloop; [|done].
  intros [= <- <-]. split; [done|]. clear -IH Hloop.
  revert σ Hloop. induction items as [|[k v] items IHi]; intros σ Hloop.
  - injection Hloop as <-. apply keeps_lists_refl.
  - cbn [foldl] in Hloop.
    destruct (Store.del_none_step (Store.del_none fuel) d (Some σ) (k, v))
      as [σ2|] eqn:Hstep; [|by rewrite foldl_step_None in Hloop].
    apply (keeps_lists_trans _ σ2); [|by apply IHi].
    unfold Store.del_none_step in Hstep.
    cbn -[Store.isinstance_dict] in Hstep.
    destruct v as [| |l].
    + by eapply store_del_keeps_lists.
    + injection Hstep as <-. apply keeps_lists_refl.
    + destruct (Store.isinstance_dict σ (Store.RRef l)).
      * destruct (Store.del_none fuel l σ) as [[σ3 r3]|] eqn:Hrec; [|done].
        injection Hstep as <-. by apply IH in Hrec as [_ ?].
      * injection Hstep as <-. apply keeps_lists_refl.
Qed.

(** Reading a tree only looks at the objects it visits. *)
Lemma tree_of_frame n σ σ' r v fp :
  Store.tree_of n σ r = Some (v, fp) →
  (∀ l, l ∈ fp → σ' !! l = σ !! l) →
  Store.tree_of n σ' r = Some (v, fp).
Proof.
  revert r v fp. induction n as [|n IH]; intros [| |l] v fp; try done.
  simpl. intros Htree Hsame.
  assert (σ' !! l = σ !! l) as ->.
  { apply Hsame. destruct (σ !! l) as [[items|elems]|]; [| |done];
      destruct (mapM _ _); simplify_eq/=; left. }
  destruct (σ !! l) as [[items|elems]|]; [| |done].
  - destruct (mapM _ items) as [kids|] eqn:Hkids; [|done].
    simpl in Htree. injection Htree as <- <-.
    assert (mapM (λ kr, tv ← Store.tree_of n σ' kr.2; Some (kr.1, tv.1, tv.2))
              items = Some kids) as ->; [|done].
    apply mapM_Some. apply mapM_Some in Hkids.
    assert (∀ l0, l0 ∈ concat (map snd kids) → σ' !! l0 = σ !! l0) as Hs
      by (intros; apply Hsame; by right).
    clear Hsame. induction Hkids as [|[k r] [[k' v] fp] items kids Hk Hkids IHk];
      [constructor|].
    constructor.
    + simpl in Hk. simpl.
      destruct (Store.tree_of n σ r) as [[v0 fp0]|] eqn:Hr; [|done].
      simpl in Hk. injection Hk as <- <- <-.
      rewrite (IH _ _ _ Hr); [done|].
      intros l0 Hl0. apply Hs. simpl. apply elem_of_app. by left.
    + apply IHk. intros l0 Hl0. apply Hs. simpl. apply elem_of_app. by right.
  - destruct (mapM _ elems) as [kids|] eqn:Hkids; [|done].
    simpl in Htree. injection Htree as <- <-.
    assert (mapM (Store.tree_of n σ') elems = Some kids) as ->; [|done].
    apply mapM_Some. apply mapM_Some in Hkids.
    assert (∀ l0, l0 ∈ concat (map snd kids) → σ' !! l0 = σ !! l0) as Hs
      by (intros; apply Hsame; by right).
    clear Hsame. induction Hkids as [|r [v fp] elems kids Hk Hkids IHk];
      [constructor|].
    constructor.
    + apply (IH _ _ _ Hk). intros l0 Hl0. apply Hs. simpl.
      apply elem_of_app. by left.
    + apply IHk. intros l0 Hl0. apply Hs. simpl. apply elem_of_app. by right.
Qed.

Lemma tree_of_dict n σ l items :
  σ !! l = Some (Store.ODict items) →
  Store.tree_of (S n) σ (Store.RRef l)
  = kids ← mapM (Store.kid n σ) items;
    Some (VDict (map fst kids), l :: concat (map snd kids)).
Proof. intros Hl. simpl. by rewrite Hl. Qed.

Lemma kids_frame n σ σ' items kids :
  Forall2 (λ kr x, Store.kid n σ kr = Some x) items kids →
  (∀ l, l ∈ concat (map snd kids) → σ' !! l = σ !! l) →
  Forall2 (λ kr x, Store.kid n σ' kr = Some x) items kids.
Proof.
  induction 1 as [|[k r] [[k' v] fp] items kids Hk Hkids IH]; intros Hs;
    constructor.
  - unfold Store.kid in *. simpl in *.
    destruct (Store.tree_of n σ r) as [[v0 fp0]|] eqn:Hr; [|done].
    simpl in Hk. injection Hk as <- <- <-.
    rewrite (tree_of_frame _ _ σ' _ _ _ Hr); [done|].
    intros l Hl. apply Hs, elem_of_app. by left.
  - apply IH. intros l Hl. apply Hs. simpl. apply elem_of_app. by right.
Qed.

Lemma kids_keys n σ items kids :
  Forall2 (λ kr x, Store.kid n σ kr = Some x) items kids →
  keys (map fst kids) = keys items.
Proof.
  induction 1 as [|[k r] [[k' v] fp] items kids Hk Hkids IH]; [done|].
  unfold Store.kid in Hk. simpl in Hk.
  destruct (Store.tree_of n σ r) as [[v0 fp0]|]; [|done].
  simpl in Hk. injection Hk as <- <- <-.
  change (k :: keys (map fst kids) = k :: keys items). by rewrite IH.
Qed.

Lemma NoDup_app_mid {A} (x y z : list A) (a : A) :
  NoDup (a :: x ++ (y ++ z)) →
  NoDup y ∧ NoDup (a :: (x ++ y) ++ z)
  ∧ (∀ l, l ∈ y → l ≠ a ∧ (l ∉ x) ∧ (l ∉ z)).
Proof.
  intros Hnd. split_and!.
  - apply NoDup_cons in Hnd as [_ Hnd].
    apply NoDup_app in Hnd as (_ & _ & Hnd).
    by apply NoDup_app in Hnd as (? & _ & _).
  - by rewrite <- app_assoc.
  - intros l Hl. apply NoDup_cons in Hnd as [Ha Hnd].
    apply NoDup_app in Hnd as (_ & Hx & Hnd).
    apply NoDup_app in Hnd as (_ & Hy & _). split_and!.
    + intros ->. apply Ha. apply elem_of_app. right. apply elem_of_app. by left.
    + intros Hlx. apply (Hx l Hlx). apply elem_of_app. by left.
    + by apply Hy.
Qed.

Lemma kid_Some n σ k r x :
  Store.kid n σ (k, r) = Some x ↔
  ∃ v fp, Store.tree_of n σ r = Some (v, fp) ∧ x = (k, v, fp).
Proof.
  unfold Store.kid. simpl. destruct (Store.tree_of n σ r) as [[v fp]|]; simpl.
  - split; [intros [= <-]; by eexists _, _ | by intros (? & ? & [= <- <-] & ->)].
  - split; [done | by intros (? & ? & ? & _)].
Qed.

Lemma tree_of_ref_inv n σ l v fp :
  Store.tree_of n σ (Store.RRef l) = Some (v, fp) →
  (∃ items t, σ !! l = Some (Store.ODict items) ∧ v = VDict t)
  ∨ (∃ elems ts, σ !! l = Some (Store.OList elems) ∧ v = VList ts).
Proof.
  destruct n as [|n]; [done|]. simpl.
  destruct (σ !! l) as [[items|elems]|]; [| |done];
    destruct (mapM _ _) as [kids|]; simpl; try done; intros [= <- <-].
  - left. by eexists _, _.
  - right. by eexists _, _.
Qed.

Lemma tree_of_None n σ : Store.tree_of n σ Store.RNone = Some (VNone, []).
Proof. by destruct n. Qed.

Lemma tree_of_atom n σ a :
  Store.tree_of n σ (Store.RAtom a) = Some (Store.atom_value a, []).
Proof. by destruct n. Qed.

Section store_loop.
Variable m : nat.
Hypothesis IHm : ∀ σ l t fp,
  Store.tree_of m σ (Store.RRef l) = Some (VDict t, fp) →
  NoDup fp → dict_ok (VDict t) = true →
  ∃ σ', Store.del_none m l σ = Some (σ', Store.RRef l)
        ∧ Store.tree_of m σ' (Store.RRef l) = Some (VDict (del_none t), fp)
        ∧ Store.same_outside fp σ σ'.

(** The loop of [del_none] on the store: the items that are done are
    pruned in place, the items to do are as they were. *)
Lemma del_none_loop_store d rest : ∀ done σc kd kr,
  σc !! d = Some (Store.ODict (done ++ rest)) →
  Forall2 (λ kr x, Store.kid m σc kr = Some x) done kd →
  Forall2 (λ kr x, Store.kid m σc kr = Some x) rest kr →
  NoDup (d :: concat (map snd kd) ++ concat (map snd kr)) →
  NoDup (keys (done ++ rest)) →
  forallb (λ x, dict_ok x.1.2) kr = true →
  ∃ σ' done' kd',
    foldl (Store.del_none_step (Store.del_none m) d) (Some σc) rest = Some σ'
    ∧ σ' !! d = Some (Store.ODict (done ++ done'))
    ∧ Forall2 (λ kr x, Store.kid m σ' kr = Some x) (done ++ done') (kd ++ kd')
    ∧ map fst kd' = pruned del_none_value (map fst kr)
    ∧ concat (map snd kd') = concat (map snd kr)
    ∧ Store.same_outside (d :: concat (map snd kr)) σc σ'.
Proof.
  induction rest as [|[k r] rest IH]; intros done σc kd kr Hd Hdone Hrest Hnd Hkeys Hok.
  { apply Forall2_nil_inv_l in Hrest as ->. exists σc, [], [].
    rewrite app_nil_r in Hd. rewrite !app_nil_r. by split_and!. }
  apply Forall2_cons_inv_l in Hrest as (x & kr' & Hx & Hrest & ->).
  apply kid_Some in Hx as (v & fpr & Hv & ->).
  simpl in Hnd, Hok. apply andb_prop in Hok as [Hokv Hok].
  destruct (NoDup_app_mid _ _ _ _ Hnd) as (Hfpr & Hnd' & Hsep).
  pose proof (NoDup_keys_middle _ _ _ _ Hkeys) as (Hk & _ & Hkeys').
  assert ((d ∉ concat (map snd kd)) ∧ (d ∉ concat (map snd kr'))) as [Hdkd Hdkr].
  { apply NoDup_cons in Hnd as [Hd' _].
    rewrite !not_elem_of_app in Hd'. tauto. }
  cbn [foldl].
  destruct r as [|a|l].
  - (* None: the key is deleted *)
    rewrite tree_of_None in Hv. injection Hv as <- <-.
    set (σ1 := <[d := Store.ODict (done ++ rest)]> σc).
    assert (Store.del_none_step (Store.del_none m) d (Some σc) (k, Store.RNone)
            = Some σ1) as ->.
    { unfold Store.del_none_step, Store.store_del. simpl. rewrite Hd.
      rewrite bool_decide_eq_true_2.
      - by rewrite dict_del_app_notin.
      - rewrite keys_app. apply elem_of_app. right. left. }
    destruct (IH done σ1 kd kr') as (σ' & done' & kd' & H1 & H2 & H3 & H4 & H5 & H6);
      try done.
    + unfold σ1. by rewrite lookup_insert_eq.
    + apply (kids_frame _ σc); [done|]. intros l Hl.
      unfold σ1. rewrite lookup_insert_ne; [done|]. by intros ->.
    + apply (kids_frame _ σc); [done|]. intros l Hl.
      unfold σ1. rewrite lookup_insert_ne; [done|]. by intros ->.
    + exists σ', done', kd'. split_and!; try done.
      intros l Hl. simpl in Hl. rewrite H6 by done.
      unfold σ1. rewrite lookup_insert_ne; [done|].
      intros ->. apply Hl. left.
  - (* a scalar: nothing happens *)
    rewrite tree_of_atom in Hv. injection Hv as <- <-.
    assert (Store.del_none_step (Store.del_none m) d (Some σc) (k, Store.RAtom a)
            = Some σc) as -> by done.
    destruct (IH (done ++ [(k, Store.RAtom a)]) σc
                (kd ++ [(k, Store.atom_value a, [])]) kr')
      as (σ' & done' & kd' & H1 & H2 & H3 & H4 & H5 & H6); try done.
    + by rewrite <- app_assoc.
    + apply Forall2_app; [done|]. constructor; [|constructor].
      apply kid_Some. eexists _, _. split; [apply tree_of_atom | done].
    + rewrite map_app, concat_app. simpl. by rewrite app_nil_r.
    + by rewrite <- app_assoc.
    + exists σ', ((k, Store.RAtom a) :: done'),
        ((k, Store.atom_value a, []) :: kd').
      rewrite <- (app_assoc done) in H2.
        rewrite <- (app_assoc done), <- (app_assoc kd) in H3.
      split_and!; [done | exact H2 | exact H3 | | done | done].
      rewrite !map_cons, H4. by destruct a.
  - (* a reference *)
    destruct (tree_of_ref_inv _ _ _ _ _ Hv)
      as [(items & t & Hl & ->)|(elems & ts & Hl & ->)].
    + (* to a dict: the nested call *)
      destruct (IHm σc l t fpr Hv Hfpr Hokv) as (σ1 & Hcall & Htree & Hout).
      assert (Store.del_none_step (Store.del_none m) d (Some σc) (k, Store.RRef l)
              = Some σ1) as ->.
      { unfold Store.del_none_step. simpl. by rewrite Hl, Hcall. }
      destruct (IH (done ++ [(k, Store.RRef l)]) σ1
                  (kd ++ [(k, VDict (del_none t), fpr)]) kr')
        as (σ' & done' & kd' & H1 & H2 & H3 & H4 & H5 & H6); try done.
      * rewrite Hout; [by rewrite <- app_assoc|].
        intros Hin. by apply Hsep in Hin as [? _].
      * apply Forall2_app.
        -- apply (kids_frame _ σc); [done|]. intros l0 Hl0. apply Hout.
           intros Hin. apply Hsep in Hin as (_ & ? & _). done.
        -- constructor; [|constructor]. apply kid_Some. by eexists _, _.
      * apply (kids_frame _ σc); [done|]. intros l0 Hl0. apply Hout.
        intros Hin. apply Hsep in Hin as (_ & _ & ?). done.
      * rewrite map_app, concat_app. simpl. by rewrite app_nil_r.
      * by rewrite <- app_assoc.
      * exists σ', ((k, Store.RRef l) :: done'),
          ((k, VDict (del_none t), fpr) :: kd').
        rewrite <- (app_assoc done) in H2.
        rewrite <- (app_assoc done), <- (app_assoc kd) in H3.
        split_and!; [done | exact H2 | exact H3 | | |].
        -- by rewrite !map_cons, H4.
        -- by rewrite !map_cons, !concat_cons, H5.
        -- intros l0 Hl0. rewrite H6, Hout; [done| |].
           ++ intros Hin. apply Hl0. right. simpl. apply elem_of_app. by left.
           ++ intros Hin. apply Hl0. apply elem_of_cons in Hin as [->|Hin];
                [left|right]. simpl. apply elem_of_app. by right.
    + (* to a list: nothing happens *)
      assert (Store.del_none_step (Store.del_none m) d (Some σc) (k, Store.RRef l)
              = Some σc) as ->.
      { unfold Store.del_none_step. simpl. by rewrite Hl. }
      destruct (IH (done ++ [(k, Store.RRef l)]) σc
                  (kd ++ [(k, VList ts, fpr)]) kr')
        as (σ' & done' & kd' & H1 & H2 & H3 & H4 & H5 & H6); try done.
      * by rewrite <- app_assoc.
      * apply Forall2_app; [done|]. constructor; [|constructor].
        apply kid_Some. by eexists _, _.
      * rewrite map_app, concat_app. simpl. by rewrite app_nil_r.
      * by rewrite <- app_assoc.
      * exists σ', ((k, Store.RRef l) :: done'), ((k, VList ts, fpr) :: kd').
        rewrite <- (app_assoc done) in H2.
        rewrite <- (app_assoc done), <- (app_assoc kd) in H3. split_and!; try done.
        -- by rewrite !map_cons, H4.
        -- by rewrite !map_cons, !concat_cons, H5.
        -- intros l0 Hl0. apply H6. intros Hin. apply Hl0.
           apply elem_of_cons in Hin as [->|Hin]; [left|right]. simpl.
           apply elem_of_app. by right.
Qed.
End store_loop.

Lemma forallb_kids_ok (kids : list (string * value * list nat)) :
  forallb (λ kv : string * value, dict_ok kv.2) (map fst kids)
  = forallb (λ x, dict_ok x.1.2) kids.
Proof. induction kids as [|x kids IH]; [done|]. simpl. by rewrite IH. Qed.

(** On a dict whose tree is visited without meeting an object twice, and
    whose keys are distinct at every level, the call on the store does what
    [del_none] does on the tree, in the same dict. *)
Lemma del_none_refines n : ∀ σ d t fp,
  Store.tree_of n σ (Store.RRef d) = Some (VDict t, fp) →
  NoDup fp → dict_ok (VDict t) = true →
  ∃ σ', Store.del_none n d σ = Some (σ', Store.RRef d)
        ∧ Store.tree_of n σ' (Store.RRef d) = Some (VDict (del_none t), fp)
        ∧ Store.same_outside fp σ σ'.
Proof.
  induction n as [|m IHm]; intros σ d t fp Htree Hnd Hok; [done|].
  pose proof Htree as Htree'. simpl in Htree'.
  destruct (σ !! d) as [[items|elems]|] eqn:Hd; [| |done]; last first.
  { by destruct (mapM _ elems). }
  clear Htree'. rewrite (tree_of_dict _ _ _ _ Hd) in Htree.
  destruct (mapM (Store.kid m σ) items) as [kids|] eqn:Hkids; [|done].
  simpl in Htree. injection Htree as <- <-.
  apply mapM_Some in Hkids.
  simpl in Hok. apply andb_prop in Hok as [Hkeys%bool_decide_eq_true Hok].
  rewrite forallb_kids_ok in Hok.
  destruct (del_none_loop_store m IHm d items [] σ [] kids)
    as (σ' & done' & kd' & H1 & H2 & H3 & H4 & H5 & H6); try done.
  { simpl. by rewrite <- (kids_keys _ _ _ _ Hkids). }
  exists σ'. split_and!.
  - simpl. rewrite Hd. simpl in H1. by rewrite H1.
  - simpl in H2, H3. rewrite (tree_of_dict _ _ _ _ H2).
    apply mapM_Some in H3. rewrite H3. simpl.
    by rewrite H4, H5, del_none_pruned.
  - done.
Qed.

(** C10. [del_none] on the store.  Whatever the store is, a call that
    returns gives back the reference it was given, makes no new object and
    leaves every list object as it is.  On a dict whose tree is visited
    without meeting an object twice (keys distinct at every level), the call
    returns, and afterwards the same dict holds the pruned tree, while
    everything outside of the objects below the dict is as before.  In the
    pruned tree a value that is a list is kept whole, with whatever [None]
    it holds: only values that are dicts are entered. *)
Theorem del_none_in_place :
  (∀ fuel d σ σ' r,
     Store.del_none fuel d σ = Some (σ', r) →
     r = Store.RRef d ∧ Store.keeps_lists σ σ')
  ∧ (∀ n σ d t fp,
       Store.tree_of n σ (Store.RRef d) = Some (VDict t, fp) →
       NoDup fp → dict_ok (VDict t) = true →
       ∃ σ', Store.del_none n d σ = Some (σ', Store.RRef d)
             ∧ Store.tree_of n σ' (Store.RRef d) = Some (VDict (del_none t), fp)
             ∧ Store.same_outside fp σ σ')
  ∧ (∀ (t : dict) k l,
       dict_ok (VDict t) = true → dict_get k t = Some (VList l) →
       dict_get k (del_none t) = Some (VList l))
  ∧ (∀ v, is_dict v = false → del_none_value v = v).
Proof.
  split; [apply del_none_safe|]. split; [intros n; apply del_none_refines|].
  split.
  - intros t k l Hok Hk. simpl in Hok.
    apply andb_prop in Hok as [Hnd%bool_decide_eq_true _].
    by rewrite del_none_pruned, dict_get_pruned, Hk.
  - by intros [].
Qed.

Lemma del_none_in_place_witness :
  ∃ σ',
    Store.del_none 3 0 Store.ex_store = Some (σ', Store.RRef 0)
    ∧ Store.tree_of 3 σ' (Store.RRef 0)
      = Some (VDict [("normal", VList [VDict [("a", VNone)]]); ("y", VDict [])],
              [0; 1; 2; 3])
    ∧ Store.same_outside [0; 1; 2; 3] Store.ex_store σ'.
Proof.
  destruct del_none_in_place as (_ & H & _).
  apply (H 3 Store.ex_store 0
           [("normal", VList [VDict [("a", VNone)]]); ("x", VNone);
            ("y", VDict [("z", VNone)])] [0; 1; 2; 3]).
  - reflexivity.
  - apply (bool_decide_unpack _). reflexivity.
  - reflexivity.
Defined.

(** ** The end-to-end scenario *)

Lemma run_files T steel w :
  files (run T steel w)
  = list_to_map (reverse (writes assets_dir (driver T steel)))
    ∪ files (exec (start w) (archive (start w))).
Proof.
  unfold run, generate. rewrite exec_app.
  rewrite exec_emission by apply driver_emission.
  by destruct (exec_archive w) as [-> _].
Qed.

(** C2 (as amended). Without a variant table, or with an empty one, the
    written variant table has exactly one entry, keyed ["normal"], and its
    value is the list that holds one empty override object, [[{}]].  In the
    end-to-end scenario (rock ["granite"], full block ["raw"]) the run
    leaves at [blockstates/raw/granite.json] a descriptor whose texture
    ["all"] is the path of raw granite and whose variants are
    [{"normal": [{}]}]. *)
Theorem blockstate_default_variants :
  (∀ model textures,
     dict_get "variants" (blockstate_doc model textures None)
     = Some (VDict [("normal", VList [VDict []])]))
  ∧ (∀ model textures,
       dict_get "variants" (blockstate_doc model textures (Some []))
       = Some (VDict [("normal", VList [VDict []])]))
  ∧ (∀ w,
       files (run scenario_tables [] w)
         !! "src/main/resources/assets/tfc/blockstates/raw/granite.json"
       = Some (FJson (VDict
           [("__comment",
             VStr "Generated by generateResources.py function: blockstate");
            ("forge_marker", VInt 1);
            ("defaults",
             VDict [("model", VStr "cube_all");
                    ("textures",
                     VDict [("all", VStr "tfc:blocks/stonetypes/raw/granite")])]);
            ("variants", VDict [("normal", VList [VDict []])])]))).
Proof.
  split_and!.
  - intros. by rewrite variants_of_blockstate.
  - intros. by rewrite variants_of_blockstate.
  - intros w. rewrite run_files. apply lookup_union_Some_l.
    vm_compute. reflexivity.
Qed.

(** C2 as it is stated fails: the value of ["normal"] is not an empty
    object, it is a list that holds one. *)
Lemma blockstate_default_not_object :
  dict_get "variants"
    (blockstate_doc (Some "cube_all")
       [(KStr "all", "tfc:blocks/stonetypes/raw/granite")] None)
  ≠ Some (VDict [("normal", VDict [])]).
Proof. vm_compute. discriminate. Qed.

(** ** The shared variant tables *)

(** [blockstate] copies the entries of the caller's table into a new dict,
    so the nested dicts of [DOOR_VARIANTS], [TRAPDOOR_VARIANTS] and
    [STAIR_VARIANTS] are shared by all the calls that use these tables, and
    [del_none] works on them in place.  It finds nothing to delete in them:
    the tables are the same for every call. *)
Lemma shared_variants_stable :
  Forall (λ kv, del_none_value kv.2 = kv.2)
    (DOOR_VARIANTS ++ TRAPDOOR_VARIANTS ++ STAIR_VARIANTS).
Proof.
  apply Forall_forall. intros kv Hin. vm_compute in Hin.
  repeat (apply elem_of_cons in Hin as [->|Hin]; [reflexivity|]).
  by apply elem_of_nil in Hin.
Qed.

(** * Further properties of the code *)

(** ** Null-pruning, again *)

Lemma NoDup_keys_pruned rec (d : dict) :
  NoDup (keys d) → NoDup (keys (pruned rec d)).
Proof.
  intros Hnd. rewrite keys_pruned. eapply sublist_NoDup; [exact Hnd|].
  unfold keys. apply fmap_sublist, sublist_filter.
Qed.

Lemma del_none_value_ok (v : value) :
  dict_ok v = true → dict_ok (del_none_value v) = true.
Proof.
  induction v as [| | | | |l IH|d IH] using value_ind'; try done.
  intros Hok. rewrite del_none_value_dict. simpl in Hok.
  apply andb_prop in Hok as [Hnd%bool_decide_eq_true Hok].
  rewrite del_none_pruned by done. simpl. apply andb_true_intro. split.
  - apply bool_decide_eq_true. by apply NoDup_keys_pruned.
  - clear Hnd. induction d as [|[k v] d IHd]; [done|].
    apply Forall_cons in IH as [IHv IH]. simpl in Hok, IHv.
    apply andb_prop in Hok as [Hv Hok]. simpl.
    destruct (is_None v); [by apply IHd|].
    simpl. rewrite (IHd IH Hok), andb_true_r.
    destruct (is_dict v); [by apply IHv | done].
Qed.

Lemma del_none_value_id (v : value) :
  dict_ok v = true → no_null_keys v = true → del_none_value v = v.
Proof.
  induction v as [| | | | |l IH|d IH] using value_ind'; try done.
  intros Hok Hnn. rewrite del_none_value_dict. simpl in Hok.
  apply andb_prop in Hok as [Hnd%bool_decide_eq_true Hok].
  rewrite del_none_pruned by done. f_equal. clear Hnd.
  induction d as [|[k v] d IHd]; [done|].
  apply Forall_cons in IH as [IHv IH]. simpl in Hok, IHv, Hnn.
  apply andb_prop in Hok as [Hv Hok].
  apply andb_prop in Hnn as [[HN Hnv]%andb_prop Hnn].
  apply negb_true_iff in HN. simpl. rewrite HN, (IHd IH Hok Hnn).
  destruct (is_dict v); [by rewrite IHv | done].
Qed.

(** X1. Pruning twice is pruning once. *)
Theorem del_none_idempotent (d : dict) :
  dict_ok (VDict d) = true → del_none (del_none d) = del_none d.
Proof.
  intros Hok.
  pose proof (del_none_value_ok (VDict d) Hok) as Hok'.
  pose proof (del_none_value_no_null (VDict d) Hok) as [Hnn _].
  rewrite del_none_value_dict in Hok', Hnn.
  pose proof (del_none_value_id _ Hok' Hnn) as Hid.
  rewrite del_none_value_dict in Hid. by injection Hid.
Qed.

Lemma del_none_idempotent_witness :
  dict_ok (VDict ex_nested) = true
  ∧ del_none (del_none ex_nested) = del_none ex_nested.
Proof.
  split; [reflexivity|]. apply (del_none_idempotent ex_nested). reflexivity.
Defined.

(** X2. The dicts that [del_none] leaves as they are, are exactly those in
    which no key, at any depth below dicts, has the value [None]. *)
Theorem del_none_fixpoint (d : dict) :
  dict_ok (VDict d) = true →
  (del_none d = d ↔ no_null_keys (VDict d) = true).
Proof.
  intros Hok. split.
  - intros Hd. rewrite <- Hd.
    by destruct (del_none_value_no_null (VDict d) Hok) as [? _].
  - intros Hnn. pose proof (del_none_value_id (VDict d) Hok Hnn) as Hid.
    rewrite del_none_value_dict in Hid. by injection Hid.
Qed.

Lemma del_none_fixpoint_witness :
  dict_ok (VDict STAIR_VARIANTS) = true
  ∧ (del_none STAIR_VARIANTS = STAIR_VARIANTS
     ↔ no_null_keys (VDict STAIR_VARIANTS) = true).
Proof.
  split; [vm_compute; reflexivity|].
  apply (del_none_fixpoint STAIR_VARIANTS). vm_compute. reflexivity.
Defined.

(** X3. Pruning keeps a dict a dict: the keys stay pairwise distinct at
    every level, and they are keys the dict had. *)
Theorem del_none_keeps_dict (d : dict) :
  dict_ok (VDict d) = true →
  dict_ok (VDict (del_none d)) = true
  ∧ keys (del_none d) `sublist_of` keys d
  ∧ (length (del_none d) ≤ length d)%nat.
Proof.
  intros Hok. split; [apply (del_none_value_ok (VDict d) Hok)|].
  simpl in Hok. apply andb_prop in Hok as [Hnd%bool_decide_eq_true _].
  assert (keys (del_none d) `sublist_of` keys d) as Hsub.
  { rewrite del_none_pruned, keys_pruned by done.
    unfold keys. apply fmap_sublist, sublist_filter. }
  split; [done|]. apply sublist_length in Hsub.
  unfold keys in Hsub. by rewrite !length_fmap in Hsub.
Qed.

Lemma del_none_keeps_dict_witness :
  dict_ok (VDict ex_nested) = true
  ∧ dict_ok (VDict (del_none ex_nested)) = true.
Proof.
  split; [reflexivity|].
  apply (del_none_keeps_dict ex_nested). reflexivity.
Defined.

(** ** No [None] reaches a file *)

Lemma del_none_value_null_free (v : value) :
  dict_ok v = true → lists_null_free v = true → is_None v = false →
  null_free (del_none_value v) = true.
Proof.
  induction v as [| | | | |l IH|d IH] using value_ind'; try done.
  intros Hok Hl _. rewrite del_none_value_dict. simpl in Hok.
  apply andb_prop in Hok as [Hnd%bool_decide_eq_true Hok].
  rewrite del_none_pruned by done. clear Hnd.
  induction d as [|[k v] d IHd]; [done|].
  apply Forall_cons in IH as [IHv IH]. simpl in Hok, IHv, Hl.
  apply andb_prop in Hok as [Hv Hok]. apply andb_prop in Hl as [Hlv Hl].
  simpl. destruct (is_None v) eqn:HN; [by apply IHd|].
  simpl in *. rewrite (IHd IH Hok Hl), andb_true_r.
  destruct (is_dict v) eqn:HD; [by apply IHv|].
  rewrite <- (IHv Hv Hlv eq_refl). by destruct v.
Qed.

Lemma forallb_dict_set {A} (P : A → bool) k v (d : list (string * A)) :
  P v = true → forallb (λ kv, P kv.2) d = true →
  forallb (λ kv, P kv.2) (dict_set k v d) = true.
Proof.
  intros Hv. induction d as [|[k' v'] d IH]; simpl; [by rewrite Hv|].
  intros [Hv' Hd]%andb_prop. case_decide; simpl.
  - by rewrite Hv, Hd.
  - by rewrite Hv', IH.
Qed.

Lemma forallb_dict_update {A} (P : A → bool) (d other : list (string * A)) :
  forallb (λ kv, P kv.2) d = true → forallb (λ kv, P kv.2) other = true →
  forallb (λ kv, P kv.2) (dict_update d other) = true.
Proof.
  unfold dict_update. revert d.
  induction other as [|[k v] other IH]; simpl; intros d Hd Ho; [done|].
  apply andb_prop in Ho as [Hv Ho]. apply IH; [|done].
  by apply forallb_dict_set.
Qed.

Lemma merge_variants_ok variants :
  variants_ok variants = true →
  dict_ok (VDict (merge_variants variants)) = true
  ∧ lists_null_free (VDict (merge_variants variants)) = true.
Proof.
  destruct variants as [vs|]; [|done]. rewrite merge_variants_update.
  simpl. intros [[Hnd Hok]%andb_prop Hl]%andb_prop.
  split.
  - apply andb_true_intro. split.
    + apply bool_decide_eq_true. apply NoDup_dict_update.
      apply (bool_decide_unpack _). reflexivity.
    + by apply (forallb_dict_update dict_ok).
  - by apply (forallb_dict_update lists_null_free).
Qed.

Lemma unpack_textures_ok textures :
  dict_ok (VDict (unpack_textures textures)) = true
  ∧ null_free (VDict (unpack_textures textures)) = true.
Proof.
  assert (∀ P : value → bool, (∀ s, P (VStr s) = true) →
            forallb (λ kv, P kv.2) (unpack_textures textures) = true) as Hall.
  { intros P HP. apply forallb_forall. intros kv Hin.
    apply list_elem_of_In, unpack_textures_str in Hin as [s ->]. apply HP. }
  split; simpl.
  - apply andb_true_intro. split; [|by apply Hall].
    apply bool_decide_eq_true. rewrite unpack_textures_flat.
    apply NoDup_dict_update. constructor.
  - by apply Hall.
Qed.

Lemma blockstate_doc_clean model textures variants :
  variants_ok variants = true →
  dict_ok (VDict (blockstate_doc model textures variants)) = true
  ∧ null_free (VDict (blockstate_doc model textures variants)) = true.
Proof.
  intros Hv. destruct (merge_variants_ok variants Hv) as [Hok Hl].
  pose proof (del_none_value_ok _ Hok) as Hok'.
  pose proof (del_none_value_null_free _ Hok Hl eq_refl) as Hnf.
  rewrite del_none_value_dict in Hok', Hnf.
  destruct (unpack_textures_ok textures) as [Hto Htn].
  rewrite blockstate_doc_eq. revert Hok' Hnf Hto Htn.
  generalize (VDict (del_none (merge_variants variants))) as vr.
  generalize (VDict (unpack_textures textures)) as tx.
  intros tx vr Hok' Hnf Hto Htn.
  destruct model; simpl; by rewrite Hok', Hnf, Hto, Htn.
Qed.

Lemma model_doc_clean parent textures :
  dict_ok parent = true → lists_null_free parent = true →
  dict_ok textures = true → lists_null_free textures = true →
  dict_ok (VDict (model_doc parent textures)) = true
  ∧ null_free (VDict (model_doc parent textures)) = true.
Proof.
  intros Hp Hpl Ht Htl. unfold model_doc.
  rewrite dict_of_NoDup by (apply (bool_decide_unpack _); reflexivity).
  split.
  - apply (del_none_value_ok (VDict _)). simpl. by rewrite Hp, Ht.
  - apply (del_none_value_null_free (VDict _)); [| |done]; simpl.
    + by rewrite Hp, Ht.
    + by rewrite Hpl, Htl.
Qed.

Lemma blockstate_clean filename_parts model textures variants :
  variants_ok variants = true →
  Forall written_clean (blockstate filename_parts model textures variants).
Proof.
  intros Hv. unfold blockstate. repeat constructor; simpl;
    by apply blockstate_doc_clean.
Qed.

Lemma cube_all_clean filename_parts texture variants model :
  variants_ok variants = true →
  Forall written_clean (cube_all filename_parts texture variants model).
Proof. apply blockstate_clean. Qed.

Lemma layer_entries_ok layers :
  dict_ok (VDict (layer_entries layers)) = true
  ∧ lists_null_free (VDict (layer_entries layers)) = true.
Proof.
  assert (∀ P : value → bool, (∀ s, P (VStr s) = true) →
            forallb (λ kv, P kv.2) (layer_entries layers) = true) as Hall.
  { intros P HP. apply forallb_forall. intros kv Hin.
    apply list_elem_of_In, list_elem_of_lookup in Hin as [i Hi].
    apply list_lookup_imap_Some in Hi as (v & _ & ->). apply HP. }
  split; simpl; [|by apply Hall].
  apply andb_true_intro. split; [|by apply Hall].
  apply bool_decide_eq_true, NoDup_layer_entries.
Qed.

Lemma item_clean filename_parts layers parent :
  Forall written_clean (item filename_parts layers parent).
Proof.
  unfold item, model. rewrite layer_textures_eq.
  destruct (layer_entries_ok layers) as [H1 H2].
  repeat constructor; simpl; apply model_doc_clean; try done;
    by case_decide.
Qed.

Ltac clean_step :=
  lazymatch goal with
  | |- Forall _ (_ ++ _) => apply Forall_app_2
  | |- Forall _ (for_ _ _) => apply Forall_for_; intros ?
  | |- Forall _ (blockstate _ _ _ _) =>
      apply blockstate_clean; vm_compute; reflexivity
  | |- Forall _ (cube_all _ _ _ _) =>
      apply cube_all_clean; vm_compute; reflexivity
  | |- Forall _ (item _ _ _) => apply item_clean
  | |- Forall _ [] => apply Forall_nil_2
  | |- Forall _ (if ?b then _ else _) => destruct b
  | |- Forall _ (let _ := _ in _) => cbv zeta
  end.

Lemma blocks_clean T :
  Forall written_clean (fluid_blocks T ++ rock_blocks T ++ wood_blocks T).
Proof. unfold fluid_blocks, rock_blocks, wood_blocks. repeat clean_step. Qed.

Lemma items_clean T steel :
  Forall written_clean (items_before_steel T)
  ∧ Forall written_clean (items_between_steel T)
  ∧ Forall written_clean (items_after_steel T)
  ∧ (∀ kind, Forall written_clean (steel_items steel kind)).
Proof.
  unfold items_before_steel, items_between_steel, items_after_steel,
    steel_items.
  split_and!; [| | |intros kind]; repeat clean_step.
Qed.

(** X4. No [None] reaches a file, and no key is written twice: every
    descriptor that [blockstate] writes for a variant table that is a dict
    whose lists hold no [None], every descriptor that [item] writes, and so
    every descriptor of a run, over any tables, is a tree of dicts with
    distinct keys without any [None]. *)
Theorem no_null_written :
  (∀ filename_parts model textures variants,
     variants_ok variants = true →
     Forall written_clean (blockstate filename_parts model textures variants))
  ∧ (∀ filename_parts layers parent,
       Forall written_clean (item filename_parts layers parent))
  ∧ (∀ T steel w, Forall written_clean (generate T steel w)).
Proof.
  split; [apply blockstate_clean|]. split; [apply item_clean|].
  intros T steel w. unfold generate. apply Forall_app_2.
  - rewrite archive_events. unfold zipfolder.
    destruct (bool_decide ("assets_backups" ∈ dirs w)); repeat constructor.
  - unfold driver. destruct (items_clean T steel) as (H1 & H2 & H3 & H4).
    pose proof (blocks_clean T) as H0.
    apply Forall_app in H0 as [Hf H0]. apply Forall_app in H0 as [Hr Hw].
    repeat (apply Forall_app_2; [done|]). done.
Qed.

(** ** More on the object store *)

Lemma del_none_loop_noop n σ d items kids :
  (∀ l t fp, Store.tree_of n σ (Store.RRef l) = Some (VDict t, fp) →
             no_null_keys (VDict t) = true →
             Store.del_none n l σ = Some (σ, Store.RRef l)) →
  Forall2 (λ kr x, Store.kid n σ kr = Some x) items kids →
  forallb (λ kv : string * value, negb (is_None kv.2) && no_null_keys kv.2)
    (map fst kids) = true →
  foldl (Store.del_none_step (Store.del_none n) d) (Some σ) items = Some σ.
Proof.
  intros IHn. induction 1 as [|[k r] x items kids Hk Hkids IH]; [done|].
  intros Hall. simpl in Hall. apply andb_prop in Hall as [Hx Hall].
  apply kid_Some in Hk as (v & fp & Hv & ->). simpl in Hx.
  apply andb_prop in Hx as [Hnone Hv'].
  cbn [foldl]. rewrite <- (IH Hall) at 2. f_equal.
  unfold Store.del_none_step. cbn [mbind option_bind snd fst].
  destruct r as [|a|l].
  - rewrite tree_of_None in Hv. by injection Hv as <- <-.
  - done.
  - destruct (tree_of_ref_inv _ _ _ _ _ Hv) as
      [(its & t & Hl & ->)|(elems & ts & Hl & ->)];
      unfold Store.isinstance_dict; rewrite Hl; [|done].
    by rewrite (IHn _ _ _ Hv Hv').
Qed.

(** X5. A dict that has nothing to prune is left alone: when no dict
    below [d] has a key with value [None], the call on the store returns
    [d] and the store is the one it was given, whether objects are shared
    or not. *)
Theorem store_del_none_noop n σ d t fp :
  Store.tree_of n σ (Store.RRef d) = Some (VDict t, fp) →
  no_null_keys (VDict t) = true →
  Store.del_none n d σ = Some (σ, Store.RRef d).
Proof.
  revert σ d t fp. induction n as [|n IHn]; intros σ d t fp Htree Hnn; [done|].
  pose proof Htree as Htree'. simpl in Htree'.
  destruct (σ !! d) as [[items|elems]|] eqn:Hd; [| |done]; last first.
  { by destruct (mapM _ elems). }
  clear Htree'. rewrite (tree_of_dict _ _ _ _ Hd) in Htree.
  destruct (mapM (Store.kid n σ) items) as [kids|] eqn:Hkids; [|done].
  simpl in Htree. injection Htree as <- <-.
  apply mapM_Some in Hkids. simpl. rewrite Hd.
  by rewrite (del_none_loop_noop n σ d items kids (IHn σ) Hkids Hnn).
Qed.

Lemma store_del_none_noop_witness :
  let σ : Store.store :=
    {[ 0 := Store.ODict [("a", Store.RRef 1); ("b", Store.RRef 1)];
       1 := Store.ODict [("c", Store.RAtom (Store.AInt 1))] ]} in
  Store.del_none 2 0 σ = Some (σ, Store.RRef 0).
Proof.
  intros σ.
  apply (store_del_none_noop 2 σ 0
           [("a", VDict [("c", VInt 1)]); ("b", VDict [("c", VInt 1)])]
           [0; 1; 1]); reflexivity.
Defined.

Lemma elem_of_dict_del {A} k k' (v : A) (d : list (string * A)) :
  k ≠ k' → (k, v) ∈ d → (k, v) ∈ dict_del k' d.
Proof.
  intros Hne. induction d as [|[k1 v1] d IH]; [done|]. simpl.
  intros [[= <- <-]|Hin]%elem_of_cons.
  - rewrite decide_False by done. left.
  - case_decide; [done|]. right. auto.
Qed.

Lemma keys_dict_del_sub {A} k (d : list (string * A)) :
  keys (dict_del k d) `sublist_of` keys d.
Proof.
  induction d as [|[k1 v1] d IH]; [done|]. simpl. case_decide.
  - by apply sublist_cons.
  - by apply sublist_skip.
Qed.

Section self_reference.
Variables (d : nat) (k : string).

#[local] Abbreviation holds_itself := (λ σ : Store.store,
  ∃ items, σ !! d = Some (Store.ODict items) ∧ NoDup (keys items)
           ∧ (k, Store.RRef d) ∈ items).

Lemma del_none_loop_self rec l σ' :
  (∀ l1 σ σ1 r, holds_itself σ → rec l1 σ = Some (σ1, r) →
                l1 ≠ d ∧ holds_itself σ1) →
  ∀ its σc,
    holds_itself σc →
    (l = d → ∀ k', (k', Store.RNone) ∈ its → k' ≠ k) →
    foldl (Store.del_none_step rec l) (Some σc) its = Some σ' →
    holds_itself σ' ∧ (l = d → (k, Store.RRef d) ∉ its).
Proof.
  intros Hrec. induction its as [|[k1 r1] its IH]; intros σc Hself Hnone.
  { simpl. intros [= <-]. split; [done|]. intros _. apply not_elem_of_nil. }
  cbn [foldl].
  destruct (Store.del_none_step rec l (Some σc) (k1, r1)) as [σ1|] eqn:Hstep;
    [|by rewrite foldl_step_None].
  intros Hfold.
  assert (holds_itself σ1 ∧ (l = d → (k1, r1) ≠ (k, Store.RRef d)))
    as [Hself1 Hne].
  { unfold Store.del_none_step in Hstep. cbn [mbind option_bind snd fst] in Hstep.
    destruct Hself as (items & Hd & Hnd & Hin).
    destruct r1 as [|a|l1].
    - unfold Store.store_del in Hstep.
      destruct (σc !! l) as [[itc|]|] eqn:Hl; try done.
      case_bool_decide; [|done]. injection Hstep as <-.
      split; [|by intros _ [= _]].
      destruct (decide (l = d)) as [->|Hld].
      + rewrite Hd in Hl. injection Hl as <-.
        exists (dict_del k1 items). rewrite lookup_insert_eq. split_and!.
        * done.
        * eapply sublist_NoDup; [apply Hnd|]. apply keys_dict_del_sub.
        * apply elem_of_dict_del; [|done].
          intros <-. apply (Hnone eq_refl k); [left|done].
      + exists items. by rewrite lookup_insert_ne.
    - injection Hstep as <-. split; [by exists items|by intros _ [= _]].
    - destruct (Store.isinstance_dict σc (Store.RRef l1)) eqn:His.
      + destruct (rec l1 σc) as [[σ2 r]|] eqn:Hr; [|done].
        simpl in Hstep. injection Hstep as <-.
        destruct (Hrec l1 σc σ2 r) as [Hl1 Hs2]; [by exists items|done|].
        split; [done|]. intros _ [= _ ->]. done.
      + injection Hstep as <-. split; [by exists items|].
        intros _ [= _ ->]. unfold Store.isinstance_dict in His.
        by rewrite Hd in His. }
  destruct (IH σ1 Hself1) as [Hs' Hnotin]; [|done|].
  { intros Hl k' Hk'. apply Hnone; [done|by right]. }
  split; [done|]. intros Hl [[= <- <-]|Hin]%elem_of_cons.
  - by apply Hne.
  - by apply Hnotin.
Qed.

Lemma del_none_self fuel : ∀ l σ σ' r,
  holds_itself σ → Store.del_none fuel l σ = Some (σ', r) →
  l ≠ d ∧ holds_itself σ'.
Proof.
  induction fuel as [|fuel IH]; intros l σ σ' r Hself; [done|].
  simpl. destruct (σ !! l) as [[its|]|] eqn:Hl; try done.
  destruct (foldl _ _ its) as [σ1|] eqn:Hfold; [|done].
  simpl. intros [= <- <-].
  destruct (del_none_loop_self _ l σ1 IH its σ Hself) as [Hs Hnotin];
    [|done|].
  - intros -> k' Hk' ->. destruct Hself as (items & Hd & Hnd & Hin).
    rewrite Hd in Hl. injection Hl as <-.
    apply list_elem_of_lookup in Hin as [i Hi].
    apply list_elem_of_lookup in Hk' as [j Hj].
    assert (i = j) as ->; [|congruence].
    eapply NoDup_lookup; [done| |];
      unfold keys; rewrite list_lookup_fmap; [by rewrite Hi|by rewrite Hj].
  - split; [|done]. intros ->. destruct Hself as (items & Hd & Hnd & Hin).
    rewrite Hd in Hl. injection Hl as <-. by apply Hnotin.
Qed.

End self_reference.

(** X6. What [del_none] cannot be called on.  On anything but a dict (a
    list, or a reference to nothing) the call raises whatever the fuel;
    on a dict that holds itself under one of its keys the recursion never
    comes back: no amount of fuel gives a result. *)
Theorem store_del_none_fails :
  (∀ fuel d σ,
     (∀ items, σ !! d ≠ Some (Store.ODict items)) →
     Store.del_none fuel d σ = None)
  ∧ (∀ fuel d σ items k,
       σ !! d = Some (Store.ODict items) → NoDup (keys items) →
       (k, Store.RRef d) ∈ items →
       Store.del_none fuel d σ = None).
Proof.
  split.
  - intros [|fuel] d σ Hd; [done|]. simpl.
    destruct (σ !! d) as [[items|]|]; [by destruct (Hd items)|done|done].
  - intros fuel d σ items k Hd Hnd Hin.
    destruct (Store.del_none fuel d σ) as [[σ' r]|] eqn:Hcall; [|done].
    destruct (del_none_self d k fuel d σ σ' r) as [Hne _]; [|done|done].
    by exists items.
Qed.

Lemma store_del_none_fails_witness :
  Store.del_none 7 0 {[ 0 := Store.ODict [("me", Store.RRef 0)] ]} = None.
Proof.
  apply (proj2 store_del_none_fails 7 0 _ [("me", Store.RRef 0)] "me").
  - reflexivity.
  - apply (bool_decide_unpack _). reflexivity.
  - left.
Defined.

(** ** The layout of the descriptors *)

Lemma filter_not_elem_of_snoc (ks : list string) (l : list string) k :
  k ∉ l →
  filter (λ x, x ∉ ks ++ [k]) l = filter (λ x, x ∉ ks) l.
Proof.
  induction l as [|x l IH]; [done|].
  intros [Hx Hl]%not_elem_of_cons. rewrite !filter_cons, (IH Hl).
  destruct (decide (x ∉ ks)) as [Hin|Hin].
  - rewrite decide_True; [done|].
    rewrite not_elem_of_app, list_elem_of_singleton. naive_solver.
  - rewrite decide_False; [done|]. rewrite not_elem_of_app. naive_solver.
Qed.

(** The keys after [d.update(other)]: those of [d] in their places, then
    the new ones in the order of [other]. *)
Lemma keys_dict_update {A} (d other : list (string * A)) :
  NoDup (keys other) →
  keys (dict_update d other)
  = keys d ++ filter (λ k, k ∉ keys d) (keys other).
Proof.
  revert d. induction other as [|[k v] other IH]; intros d Hnd.
  { simpl. by rewrite app_nil_r. }
  change (keys ((k, v) :: other)) with (k :: keys other) in *.
  apply NoDup_cons in Hnd as [Hk Hnd].
  change (dict_update d ((k, v) :: other))
    with (dict_update (dict_set k v d) other).
  rewrite (IH _ Hnd), keys_dict_set, filter_cons.
  destruct (decide (k ∈ keys d)) as [Hin|Hin].
  - by rewrite decide_False by naive_solver.
  - rewrite decide_True by done.
    by rewrite filter_not_elem_of_snoc, <- app_assoc.
Qed.

Lemma keys_filter_values (d : dict) (Q : string → Prop)
    `{!∀ k, Decision (Q k)} :
  (∀ k v, (k, v) ∈ d → is_None v = false ↔ Q k) →
  keys (filter (λ kv, is_None kv.2 = false) d) = filter Q (keys d).
Proof.
  induction d as [|[k v] d IH]; [done|]. intros HQ.
  change (keys ((k, v) :: d)) with (k :: keys d).
  pose proof (HQ k v ltac:(left)) as Hkv.
  assert (keys (filter (λ kv, is_None kv.2 = false) d) = filter Q (keys d))
    as IH' by (apply IH; intros ???; apply HQ; by right).
  rewrite !filter_cons. simpl.
  destruct (decide (is_None v = false));
    [rewrite decide_True by tauto|rewrite decide_False by tauto]; [|done].
  change (k :: keys (filter (λ kv, is_None kv.2 = false) d)
          = k :: filter Q (keys d)). by rewrite IH'.
Qed.

(** X7. The layout of a block-state descriptor.  Whatever the arguments
    are, the file has the four keys ["__comment"], ["forge_marker"],
    ["defaults"], ["variants"] in this order, and the marker is [1].  The
    variant table lists ["normal"] first and then the caller's other keys
    in the caller's order, without the keys the caller maps to [None]. *)
Theorem blockstate_layout model textures variants :
  keys (blockstate_doc model textures variants)
  = ["__comment"; "forge_marker"; "defaults"; "variants"]
  ∧ dict_get "forge_marker" (blockstate_doc model textures variants)
    = Some (VInt 1)
  ∧ (∀ vs, variants = Some vs → NoDup (keys vs) →
       ∃ out,
         dict_get "variants" (blockstate_doc model textures variants)
         = Some (VDict out)
         ∧ keys out
           = filter (λ k, is_None <$> dict_get k vs ≠ Some true)
               ("normal" :: filter (λ k, k ≠ "normal") (keys vs))).
Proof.
  rewrite blockstate_doc_eq. split; [done|]. split; [done|].
  intros vs -> Hnd. eexists. split; [reflexivity|].
  rewrite merge_variants_update.
  assert (NoDup (keys (dict_update default_variants vs))) as Hnd'.
  { apply NoDup_dict_update, (bool_decide_unpack _). reflexivity. }
  rewrite del_none_pruned, keys_pruned by done.
  rewrite (keys_filter_values _
             (λ k, is_None <$> dict_get k vs ≠ Some true)).
  - rewrite keys_dict_update by done. simpl. do 2 f_equal.
    apply list_filter_iff. intros k.
    rewrite not_elem_of_cons. split; [naive_solver|].
    intros Hk. split; [done|apply not_elem_of_nil].
  - intros k v Hin. apply (dict_get_elem _ _ _ Hnd') in Hin.
    rewrite dict_get_update in Hin by done.
    destruct (dict_get k vs) as [v'|]; simpl.
    + injection Hin as ->. destruct (is_None v); naive_solver.
    + simpl in Hin. case_decide; [|done]. injection Hin as <-. naive_solver.
Qed.

(** X8. The layout of a model descriptor: the marker first, then the
    parent and the texture mapping, each left out when it is [None] and
    pruned when it is a dict, as it is otherwise. *)
Theorem model_layout parent textures :
  keys (model_doc parent textures)
  = ["__comment"]
    ++ (if is_None parent then [] else ["parent"])
    ++ (if is_None textures then [] else ["textures"])
  ∧ dict_get "parent" (model_doc parent textures)
    = (if is_None parent then None else Some (del_none_value parent))
  ∧ dict_get "textures" (model_doc parent textures)
    = (if is_None textures then None else Some (del_none_value textures)).
Proof.
  rewrite model_doc_eq. cbn [pruned is_None is_dict].
  destruct parent, textures; done.
Qed.

(** ** What a run leaves behind *)

(** The world after the archival step. *)
Lemma archive_world w :
  ∃ entries,
    exec (start w) (archive (start w))
    = World assets_dir
        (if bool_decide ("assets_backups" ∈ dirs w) then dirs w
         else {["assets_backups"]} ∪ dirs w)
        (<[backup_name w := FZip entries]>
           (if bool_decide ("assets_backups" ∈ dirs w) then files w
            else <["assets_backups/.gitignore" := FRaw gitignore_text]>
                   (files w)))
        (clock w)
    ∧ ∀ rel, entries !! rel = files w !! (assets +:+ "/" +:+ rel).
Proof.
  set (init := if bool_decide ("assets_backups" ∈ dirs w) then []
               else [EMkdir "assets_backups";
                     EWriteText "assets_backups/.gitignore" gitignore_text]).
  destruct (zipfolder_entries (exec (start w) init) (backup_name w) assets)
    as (entries & Hzip & Hentries).
  { unfold init. by destruct (bool_decide _). }
  exists entries. split.
  - rewrite archive_events. fold init. fold (backup_name w).
    rewrite Hzip, exec_app. unfold init.
    by destruct (bool_decide ("assets_backups" ∈ dirs w)).
  - intros rel. rewrite Hentries. unfold init.
    destruct (bool_decide _); [done|]. simpl. by rewrite lookup_insert_ne.
Qed.

(** A descriptor is written at a path that starts with the assets
    directory or is absolute: never in the archive root. *)
Lemma writes_resolved es kv :
  kv ∈ writes assets_dir es →
  ∃ p doc, kv = (resolve_in assets_dir p, FJson doc) ∧ EWriteJson p doc ∈ es.
Proof.
  unfold writes. rewrite elem_of_flat_map. intros (e & He & Hkv).
  destruct e; try by apply elem_of_nil in Hkv.
  apply list_elem_of_singleton in Hkv as ->. by eexists _, _.
Qed.

Lemma resolve_assets_first p :
  ∃ r, resolve_in assets_dir p = String "/" r
       ∨ resolve_in assets_dir p = String "s" r.
Proof.
  unfold resolve_in, os_path_join. cbn [foldl]. unfold join2.
  destruct (is_abs p) eqn:Hp.
  - destruct p as [|c p]; [done|]. simpl in Hp.
    apply Ascii.eqb_eq in Hp as ->. eexists. by left.
  - eexists. right. reflexivity.
Qed.

Lemma written_not_backup es (k : string) :
  (∀ r, k ≠ String "/" r) → (∀ r, k ≠ String "s" r) →
  (list_to_map (reverse (writes assets_dir es)) : gmap string fdata) !! k
  = None.
Proof.
  intros H1 H2. apply not_elem_of_list_to_map_1.
  rewrite fmap_reverse, elem_of_reverse, list_elem_of_fmap.
  intros (kv & -> & (p & doc & -> & _)%writes_resolved).
  destruct (resolve_assets_first p) as [r [Hr|Hr]]; simpl in *.
  - by apply (H1 r).
  - by apply (H2 r).
Qed.

(** A file that is not a descriptor the driver writes, not the archive
    and not the ignore-all file is after the run what it was before. *)
Lemma run_files_outside T steel w p :
  p ∉ (writes assets_dir (driver T steel)).*1 →
  p ≠ backup_name w → p ≠ "assets_backups/.gitignore" →
  files (run T steel w) !! p = files w !! p.
Proof.
  destruct (archive_world w) as (entries & Hw & _).
  intros Hp Hb Hg. rewrite run_files, Hw. cbn [files].
  rewrite lookup_union, (not_elem_of_list_to_map_1 _ p); last first.
  { by rewrite fmap_reverse, elem_of_reverse. }
  rewrite (left_id_L None _), lookup_insert_ne by done.
  case_bool_decide; [done|]. by rewrite lookup_insert_ne.
Qed.


(** X10. The backup.  After a run the archive named by the second the run
    started in is in the archive root and holds every file that was below
    the assets directory before the run, under its relative path, whatever
    the tables are: the driver never writes there.  A second run started
    within the same second writes its archive under the same name: what is
    there then is the tree the first run left, and the archive of the first
    run is gone. *)
Theorem backup_kept T steel w :
  (∃ entries,
     files (run T steel w) !! backup_name w = Some (FZip entries)
     ∧ ∀ rel, entries !! rel = files w !! (assets +:+ "/" +:+ rel))
  ∧ (∀ T' steel' t,
       int_of t = int_of (clock w) →
       ∃ entries,
         files (run T' steel' (at_time t (run T steel w))) !! backup_name w
         = Some (FZip entries)
         ∧ ∀ rel, entries !! rel
                  = files (run T steel w) !! (assets +:+ "/" +:+ rel)).
Proof.
  assert (∀ T steel w,
            ∃ entries,
              files (run T steel w) !! backup_name w = Some (FZip entries)
              ∧ ∀ rel, entries !! rel = files w !! (assets +:+ "/" +:+ rel))
    as Hrun.
  { clear. intros T steel w.
    destruct (archive_world w) as (entries & Hw & Hentries).
    exists entries. split; [|done].
    rewrite run_files, Hw. cbn [files].
    rewrite lookup_union, written_not_backup by done.
    by rewrite (left_id_L None _), lookup_insert_eq. }
  split; [apply Hrun|].
  intros T' steel' t Ht.
  destruct (Hrun T' steel' (at_time t (run T steel w)))
    as (entries & Hfile & Hentries).
  exists entries. split; [|done].
  rewrite <- Hfile. unfold backup_name.
  change (clock (at_time t (run T steel w))) with t. by rewrite Ht.
Qed.

(** ** Where the descriptors go *)

Lemma has_sep_app a b : has_sep (a +:+ b) = has_sep a || has_sep b.
Proof. induction a as [|c a IH]; simpl; [done|]. by rewrite IH, orb_assoc. Qed.

Lemma all_sep_app a b : all_sep (a +:+ b) = all_sep a && all_sep b.
Proof. induction a as [|c a IH]; simpl; [done|]. by rewrite IH, andb_assoc. Qed.

Lemma endswith_sep_app a b : b ≠ "" → endswith_sep (a +:+ b) = endswith_sep b.
Proof.
  intros Hb. induction a as [|c a IH]; [done|].
  change (String c a +:+ b) with (String c (a +:+ b)).
  cbn [endswith_sep]. destruct (a +:+ b) eqn:Hab; [|done].
  destruct a; [done|discriminate].
Qed.

Lemma endswith_sep_no_sep s : has_sep s = false → endswith_sep s = false.
Proof.
  induction s as [|c s IH]; [done|]. simpl.
  intros [Hc Hs]%orb_false_elim. destruct s; [done|]. by apply IH.
Qed.

Lemma endswith_sep_tail c s :
  endswith_sep (String c s) = false → endswith_sep s = false.
Proof. by destruct s. Qed.

Lemma all_sep_endswith s : s ≠ "" → all_sep s = true → endswith_sep s = true.
Proof.
  induction s as [|c s IH]; [done|]. intros _. simpl.
  intros [Hc Hs]%andb_prop. destruct s; [done|]. by apply IH.
Qed.

Lemma upto_last_sep_no_sep s : has_sep s = false → upto_last_sep s = "".
Proof. destruct s as [|c s]; [done|]. cbn [upto_last_sep]. by intros ->. Qed.

Lemma upto_last_sep_app a b :
  has_sep b = true → upto_last_sep (a +:+ b) = a +:+ upto_last_sep b.
Proof.
  intros Hb. induction a as [|c a IH]; [done|].
  change (String c a +:+ b) with (String c (a +:+ b)).
  cbn [upto_last_sep]. rewrite IH.
  change (has_sep (String c (a +:+ b)))
    with (Ascii.eqb c sep || has_sep (a +:+ b)).
  by rewrite has_sep_app, Hb, !orb_true_r.
Qed.

Lemma rstrip_sep_app_sep a :
  endswith_sep a = false → rstrip_sep (a +:+ "/") = a.
Proof.
  induction a as [|c a IH]; [done|]. intros Ha.
  change (String c a +:+ "/") with (String c (a +:+ "/")).
  cbn [rstrip_sep]. rewrite IH by by eapply endswith_sep_tail.
  destruct (all_sep (String c (a +:+ "/"))) eqn:Hall; [|done].
  change (String c (a +:+ "/")) with (String c a +:+ "/") in Hall.
  rewrite all_sep_app in Hall. apply andb_prop in Hall as [Hall _].
  apply all_sep_endswith in Hall; [congruence|done].
Qed.

Lemma segment_inv s :
  segment s = true → s ≠ "" ∧ has_sep s = false ∧ is_abs s = false.
Proof.
  unfold segment. intros [Hne Hs%negb_true_iff]%andb_prop.
  split_and!; [by intros ->|done|].
  destruct s as [|c s]; [done|]. simpl in *. by apply orb_false_elim in Hs as [-> _].
Qed.

(** Joining segments to a root that is not empty and does not end in a
    separator puts one separator before each. *)
Lemma os_path_join_segments parts : ∀ root,
  root ≠ "" → endswith_sep root = false →
  Forall (λ s, segment s = true) parts →
  os_path_join root parts = foldl (λ a s, a +:+ "/" +:+ s) root parts
  ∧ os_path_join root parts ≠ ""
  ∧ endswith_sep (os_path_join root parts) = false.
Proof.
  induction parts as [|s parts IH]; intros root Hne Hend Hparts; [done|].
  apply Forall_cons in Hparts as [Hs Hparts].
  apply segment_inv in Hs as (Hs & Hsep & Habs).
  unfold os_path_join. cbn [foldl]. unfold join2 at 2 4 6. rewrite Habs, Hend.
  assert (String.eqb root "" = false) as -> by by apply String.eqb_neq.
  simpl. apply IH; [by destruct root| |done].
  rewrite endswith_sep_app by done.
  change ("/" +:+ s) with (String "/" s). destruct s as [|c s]; [done|].
  change (endswith_sep (String c s) = false). by apply endswith_sep_no_sep.
Qed.

Lemma os_path_join_snoc root parts x :
  os_path_join root (parts ++ [x]) = join2 (os_path_join root parts) x.
Proof. unfold os_path_join. by rewrite foldl_app. Qed.

(** The path of a descriptor and its directory, for a naming path of
    segments. *)
Lemma descriptor_path root parts x :
  root ≠ "" → endswith_sep root = false →
  Forall (λ s, segment s = true) parts → segment x = true →
  os_path_join root (parts ++ [x]) +:+ ".json"
  = foldl (λ a s, a +:+ "/" +:+ s) root parts +:+ "/" +:+ x +:+ ".json"
  ∧ os_path_dirname (os_path_join root (parts ++ [x]) +:+ ".json")
    = foldl (λ a s, a +:+ "/" +:+ s) root parts.
Proof.
  intros Hne Hend Hparts Hx.
  destruct (os_path_join_segments parts root Hne Hend Hparts)
    as (Hjoin & Hne' & Hend').
  apply segment_inv in Hx as (Hx & Hsep & Habs).
  rewrite os_path_join_snoc. unfold join2. rewrite Habs, Hend'.
  assert (String.eqb (os_path_join root parts) "" = false) as ->
    by by apply String.eqb_neq.
  rewrite Hjoin in *. set (A := foldl _ root parts) in *.
  cbn [orb]. rewrite !str_app_assoc. split; [done|].
  unfold os_path_dirname.
  assert (upto_last_sep (A +:+ "/" +:+ x +:+ ".json") = A +:+ "/") as ->.
  { rewrite upto_last_sep_app by done.
    change ("/" +:+ x +:+ ".json") with (String "/" (x +:+ ".json")).
    cbn [upto_last_sep has_sep]. simpl.
    rewrite upto_last_sep_no_sep; [done|]. by rewrite has_sep_app, Hsep. }
  rewrite all_sep_app.
  assert (all_sep A = false) as ->.
  { destruct (all_sep A) eqn:Hall; [|done].
    apply all_sep_endswith in Hall; [congruence|done]. }
  assert (String.eqb (A +:+ "/") "" = false) as ->.
  { apply String.eqb_neq. by destruct A. }
  simpl. by apply rstrip_sep_app_sep.
Qed.

(** An absolute segment makes [os.path.join] forget what comes before. *)
Lemma os_path_join_abs root pre s post :
  is_abs s = true → os_path_join root (pre ++ s :: post) = os_path_join s post.
Proof.
  intros Hs. unfold os_path_join. rewrite foldl_app. cbn [foldl].
  unfold join2 at 2. by rewrite Hs.
Qed.

(** X11. Where an emitter writes.  For a naming path of segments (not
    empty, no separator) [blockstate] makes the directory
    [blockstates/s1/.../sn] and writes the file [x.json] in it, where [x]
    is the last segment; [model] does the same below [models].  A segment
    that is absolute makes the emitter forget the root folder and what
    comes before the segment: the descriptor goes to the absolute path. *)
Theorem emitter_paths :
  (∀ parts x model textures variants,
     Forall (λ s, segment s = true) parts → segment x = true →
     blockstate (parts ++ [x]) model textures variants
     = [EMakedirs (foldl (λ a s, a +:+ "/" +:+ s) "blockstates" parts);
        EWriteJson
          (foldl (λ a s, a +:+ "/" +:+ s) "blockstates" parts
           +:+ "/" +:+ x +:+ ".json")
          (VDict (blockstate_doc model textures variants))])
  ∧ (∀ parts x parent textures,
       Forall (λ s, segment s = true) parts → segment x = true →
       model (parts ++ [x]) parent textures
       = [EMakedirs (foldl (λ a s, a +:+ "/" +:+ s) "models" parts);
          EWriteJson
            (foldl (λ a s, a +:+ "/" +:+ s) "models" parts
             +:+ "/" +:+ x +:+ ".json")
            (VDict (model_doc parent textures))])
  ∧ (∀ pre s post model textures variants,
       is_abs s = true →
       blockstate (pre ++ s :: post) model textures variants
       = [EMakedirs (os_path_dirname (os_path_join s post +:+ ".json"));
          EWriteJson (os_path_join s post +:+ ".json")
            (VDict (blockstate_doc model textures variants))]).
Proof.
  split_and!.
  - intros parts x model textures variants Hparts Hx. unfold blockstate.
    by destruct (descriptor_path "blockstates" parts x) as [-> ->].
  - intros parts x parent textures Hparts Hx. unfold model.
    by destruct (descriptor_path "models" parts x) as [-> ->].
  - intros pre s post model textures variants Hs. unfold blockstate.
    by rewrite os_path_join_abs.
Qed.

Lemma emitter_paths_witness :
  blockstate (["wood"; "log"] ++ ["oak"]) None [] None
  = [EMakedirs "blockstates/wood/log";
     EWriteJson "blockstates/wood/log/oak.json"
       (VDict (blockstate_doc None [] None))]
  ∧ blockstate (["wood"] ++ "/tmp/oak" :: []) None [] None
    = [EMakedirs "/tmp";
       EWriteJson "/tmp/oak.json" (VDict (blockstate_doc None [] None))].
Proof.
  destruct emitter_paths as (H1 & _ & H3). split.
  - apply (H1 ["wood"; "log"] "oak" None [] None); [|reflexivity].
    repeat constructor.
  - apply (H3 ["wood"] "/tmp/oak" [] None [] None). reflexivity.
Defined.

(** ** The driver stays below [blockstates] and [models/item] *)

Lemma str_app_nil_r (s : string) : s +:+ "" = s.
Proof. induction s as [|c s IH]; simpl; [done|]. by rewrite IH. Qed.

Lemma os_path_join_relative parts : ∀ root,
  Forall (λ s, is_abs s = false) parts →
  ∃ r, os_path_join root parts = root +:+ r.
Proof.
  induction parts as [|s parts IH]; intros root Hparts.
  { exists "". unfold os_path_join. simpl. by rewrite str_app_nil_r. }
  apply Forall_cons in Hparts as [Hs Hparts].
  destruct (IH (join2 root s) Hparts) as [r Hr].
  unfold os_path_join in *. cbn [foldl]. rewrite Hr.
  unfold join2. rewrite Hs. destruct (_ || _).
  - exists (s +:+ r). by rewrite str_app_assoc.
  - exists ("/" +:+ s +:+ r). by rewrite !str_app_assoc.
Qed.

Lemma blockstate_confined s rest model textures variants :
  Forall (λ s, is_abs s = false) (s :: rest) →
  Forall confined (blockstate (s :: rest) model textures variants).
Proof.
  intros [Hs Hrest]%Forall_cons. unfold blockstate.
  apply Forall_cons_2; [done|]. apply Forall_cons_2; [|done]. left.
  destruct (os_path_join_relative rest (join2 "blockstates" s) Hrest)
    as [r Hr].
  unfold os_path_join in *. cbn [foldl]. rewrite Hr.
  unfold join2. rewrite Hs. simpl. apply (str_prefix_app "blockstates/").
Qed.

Lemma cube_all_confined s rest texture variants model :
  Forall (λ s, is_abs s = false) (s :: rest) →
  Forall confined (cube_all (s :: rest) texture variants model).
Proof. apply blockstate_confined. Qed.

Lemma item_confined s rest layers parent :
  Forall (λ s, is_abs s = false) (s :: rest) →
  Forall confined (item (s :: rest) layers parent).
Proof.
  intros [Hs Hrest]%Forall_cons. unfold item, model.
  apply Forall_cons_2; [done|]. apply Forall_cons_2; [|done]. right.
  destruct (os_path_join_relative rest (join2 "models/item" s) Hrest)
    as [r Hr].
  unfold os_path_join in *. cbn [foldl].
  change (join2 "models" "item") with "models/item". rewrite Hr.
  unfold join2. rewrite Hs. simpl. apply (str_prefix_app "models/item/").
Qed.

Lemma Forall_for_elem {A} (P : event → Prop) (xs : list A) body :
  (∀ x, x ∈ xs → Forall P (body x)) → Forall P (for_ xs body).
Proof.
  intros Hb. unfold for_. induction xs as [|x xs IH]; simpl; [constructor|].
  apply Forall_app_2.
  - apply Hb. left.
  - apply IH. intros y Hy. apply Hb. by right.
Qed.

Section confined.
Variables (T : tables) (steel : list string).
Hypothesis Hnames : ∀ s, s ∈ table_names T steel → is_abs s = false.

Ltac in_names := apply Hnames; unfold table_names; rewrite !elem_of_app; tauto.

Ltac relative Hx :=
  lazymatch type of Hx with
  | _ ∈ (_ ++ _) => apply elem_of_app in Hx as [Hx|Hx]; relative Hx
  | _ ∈ (_ :: _) => apply elem_of_cons in Hx as [->|Hx]; [|relative Hx]
  | _ ∈ [] => by apply elem_of_nil in Hx
  | ?x ∈ _ =>
      first
        [ assert (is_abs x = false) by in_names
        | assert (is_abs x.1 = false)
            by (apply (list_elem_of_fmap_2 fst) in Hx; in_names) ]
  end.

Ltac relative_parts :=
  repeat first [apply Forall_nil_2
               | apply Forall_cons_2; [first [assumption|reflexivity]|]].

Ltac confined_step :=
  lazymatch goal with
  | |- Forall _ (_ ++ _) => apply Forall_app_2
  | |- Forall _ (for_ _ _) =>
      apply Forall_for_elem;
      let x := fresh "x" in let Hx := fresh "Hx" in
      intros x Hx; relative Hx
  | |- Forall _ (blockstate _ _ _ _) =>
      apply blockstate_confined; relative_parts
  | |- Forall _ (cube_all _ _ _ _) => apply cube_all_confined; relative_parts
  | |- Forall _ (item _ _ _) => apply item_confined; relative_parts
  | |- Forall _ [] => apply Forall_nil_2
  | |- Forall _ (if ?b then _ else _) => destruct b
  | |- Forall _ (let _ := _ in _) => cbv zeta
  end.

Lemma blocks_confined :
  Forall confined (fluid_blocks T ++ rock_blocks T ++ wood_blocks T).
Proof. unfold fluid_blocks, rock_blocks, wood_blocks. repeat confined_step. Qed.

Lemma items_confined :
  Forall confined (items_before_steel T)
  ∧ Forall confined (items_between_steel T)
  ∧ Forall confined (items_after_steel T)
  ∧ (∀ kind, is_abs kind = false →
             Forall confined (steel_items steel kind)).
Proof.
  unfold items_before_steel, items_between_steel, items_after_steel,
    steel_items.
  split_and!; [| | |intros kind Hkind]; repeat confined_step.
Qed.

Lemma driver_confined : Forall confined (driver T steel).
Proof.
  unfold driver. destruct items_confined as (H1 & H2 & H3 & H4).
  pose proof blocks_confined as H0.
  apply Forall_app in H0 as [Hf H0]. apply Forall_app in H0 as [Hr Hw].
  repeat (apply Forall_app_2; [by auto|]). done.
Qed.

End confined.



(** ** What an emitter does to the world *)

Lemma elem_of_dir_chain p : p ≠ "" → p ∈ dir_chain p.
Proof.
  induction p as [|c p IH]; [done|]. intros _. cbn [dir_chain].
  destruct p as [|c' p].
  - left.
  - apply elem_of_app. right. apply list_elem_of_In, in_map, list_elem_of_In.
    by apply IH.
Qed.

Lemma emit_effect w root parts x doc :
  root ≠ "" → is_abs root = false → endswith_sep root = false →
  Forall (λ s, segment s = true) parts → segment x = true →
  let p := os_path_join root (parts ++ [x]) +:+ ".json" in
  let dir :=
    dir_prefix (cwd w) +:+ foldl (λ a s, a +:+ "/" +:+ s) root parts in
  exec w [EMakedirs (os_path_dirname p); EWriteJson p doc]
  = World (cwd w) (list_to_set (dir_chain dir) ∪ dirs w)
      (<[dir +:+ "/" +:+ x +:+ ".json" := FJson doc]> (files w)) (clock w)
  ∧ dir ∈ dir_chain dir.
Proof.
  intros Hne Habs Hend Hparts Hx p dir. unfold p.
  destruct (descriptor_path root parts x Hne Hend Hparts Hx) as [-> ->].
  destruct (os_path_join_segments parts root Hne Hend Hparts) as (Hj & _ & _).
  destruct (os_path_join_relative parts root) as [r Hr].
  { eapply Forall_impl; [done|]. intros s Hs. by apply segment_inv in Hs as (_ & _ & ?). }
  rewrite Hj in Hr. unfold dir. rewrite Hr.
  assert (is_abs (root +:+ r) = false) as Hrel by by destruct root.
  split.
  - unfold exec. cbn [foldl step cwd dirs files clock].
    unfold resolve. cbn [cwd].
    rewrite !resolve_in_rel; [|by destruct root|done].
    by rewrite <- !str_app_assoc.
  - apply elem_of_dir_chain. destruct (dir_prefix (cwd w)); [|done].
    by destruct root.
Qed.



(** ** The ignore-all file *)

(** X14. The archive root is a directory after every run.  A run that
    finds it there does not make it and leaves the ignore-all file alone,
    whatever is in it and whether it is there at all; a run that does not
    find it writes the ignore-all file. *)
Theorem ignore_file_once T steel w :
  "assets_backups" ∈ dirs (run T steel w)
  ∧ ("assets_backups" ∈ dirs w →
     files (run T steel w) !! "assets_backups/.gitignore"
     = files w !! "assets_backups/.gitignore"
     ∧ EMkdir "assets_backups" ∉ generate T steel w)
  ∧ ("assets_backups" ∉ dirs w →
     files (run T steel w) !! "assets_backups/.gitignore"
     = Some (FRaw gitignore_text)).
Proof.
  destruct (archive_world w) as (entries & Hw & _).
  assert (backup_name w ≠ "assets_backups/.gitignore") as Hne.
  { unfold backup_name. intros [= H].
    destruct (str_of_Z (int_of (clock w))) as [|c s] eqn:Hs; [done|].
    injection H as -> _. unfold str_of_Z in Hs.
    destruct (Z.to_int (int_of (clock w))) as [u|u]; [|done].
    destruct u; done. }
  assert (files (run T steel w) !! "assets_backups/.gitignore"
          = (if bool_decide ("assets_backups" ∈ dirs w) then files w
             else <["assets_backups/.gitignore" := FRaw gitignore_text]>
                    (files w)) !! "assets_backups/.gitignore") as Hfile.
  { rewrite run_files, Hw. cbn [files].
    rewrite lookup_union, written_not_backup by done.
    by rewrite (left_id_L None _), lookup_insert_ne. }
  split_and!.
  - unfold run, generate. rewrite exec_app, Hw.
    rewrite exec_emission by apply driver_emission. cbn [dirs].
    apply elem_of_union. right. case_bool_decide; [done|].
    apply elem_of_union. left. by apply elem_of_singleton.
  - intros Hdir. rewrite Hfile, bool_decide_eq_true_2 by done.
    split; [done|]. unfold generate. rewrite archive_events.
    rewrite bool_decide_eq_true_2 by done. unfold zipfolder.
    intros [Hin|Hin]%elem_of_app.
    + elem_inv Hin.
    + pose proof (driver_emission T steel) as Hdrv.
      rewrite Forall_forall in Hdrv. by apply Hdrv in Hin.
  - intros Hdir. rewrite Hfile, bool_decide_eq_false_2 by done.
    by rewrite lookup_insert_eq.
Qed.

(** ** [cube_all] *)

